(** * The B+Tree node codec of simple-db (package index)

    A shallow embedding of the page codec: a node is a byte buffer, the
    accessors read and write little-endian fields at positions computed in
    16-bit unsigned arithmetic, and every failed assertion or slice bound is
    a panic.  Integers are [Z] with the wrap-around of Go's [uint16] and
    [uint64] written out; panics are the [Panic] branch of [result]. *)

From Stdlib Require Import ZArith Lia.
From Stdlib Require Import Strings.String Strings.Byte.
From stdpp Require Import base option list gmap.

Local Open Scope Z_scope.

(** ** Panics and the result monad *)

Inductive panic : Type :=
  | AssertionFailed (msg : string)   (* panic(fmt.Sprintf(...)) in [assert] *)
  | SliceBoundsOutOfRange            (* runtime error of s[lo:hi] *)
  | IndexOutOfRange.                 (* runtime error of s[i] *)

Inductive result (A : Type) : Type :=
  | Ok (a : A)
  | Panic (p : panic).
Arguments Ok {A} a.
Arguments Panic {A} p.

#[global] Instance result_ret : MRet result := fun A a => Ok a.
#[global] Instance result_bind : MBind result := fun A B f m =>
  match m with
  | Ok a => f a
  | Panic p => Panic p
  end.

Definition is_Panic {A} (r : result A) : Prop := exists p, r = Panic p.

(** func assert(cond bool, msg string) *)
Definition assert (cond : bool) (msg : string) : result unit :=
  if cond then Ok tt
  else Panic (AssertionFailed ("assertion failed: " ++ msg)).

(** ** Machine integers *)

Definition u16 (x : Z) : Z := x mod 2 ^ 16.
Definition u64 (x : Z) : Z := x mod 2 ^ 64.

Definition add16 (a b : Z) : Z := u16 (a + b).
Definition sub16 (a b : Z) : Z := u16 (a - b).
Definition mul16 (a b : Z) : Z := u16 (a * b).

Definition byte_to_Z (b : byte) : Z := Z.of_N (Byte.to_N b).

(** The conversion [byte(v)] of an unsigned integer keeps the low 8 bits. *)
Definition byte_of_Z (v : Z) : byte :=
  default Byte.x00 (Byte.of_N (Z.to_N (v mod 256))).

(** ** Constants *)

Definition BNode_Node : Z := 0.
Definition BNode_Leaf : Z := 1.

Definition Header : Z := 4.
Definition BTreePageSize : Z := 4096.
Definition BTreeMaxKeySize : Z := 1000.
Definition BTreeMaxValSize : Z := 3000.

(** ** Slices of the page buffer

    A buffer is modelled by the list of the bytes up to its capacity, so a
    slice expression [d[lo:hi]] panics exactly when [lo <= hi <= length d]
    fails.  Writing through a sub-slice changes the buffer it was cut from:
    [write_back] puts the sub-slice back at its place. *)

Definition slice (d : list byte) (lo hi : Z) : result (list byte) :=
  if (0 <=? lo) && (lo <=? hi) && (hi <=? Z.of_nat (length d))
  then Ok (take (Z.to_nat (hi - lo)) (drop (Z.to_nat lo) d))
  else Panic SliceBoundsOutOfRange.

Definition write_back (d : list byte) (lo : Z) (s : list byte) : list byte :=
  take (Z.to_nat lo) d ++ s ++ drop (Z.to_nat lo + length s)%nat d.

(** ** encoding/binary, LittleEndian *)

Definition Uint16 (b : list byte) : result Z :=
  match b with
  | b0 :: b1 :: _ =>
      Ok (Z.lor (byte_to_Z b0) (Z.shiftl (byte_to_Z b1) 8))
  | _ => Panic IndexOutOfRange
  end.

Definition PutUint16 (b : list byte) (v : Z) : result (list byte) :=
  match b with
  | _ :: _ :: rest =>
      Ok (byte_of_Z v :: byte_of_Z (Z.shiftr v 8) :: rest)
  | _ => Panic IndexOutOfRange
  end.

Definition Uint64 (b : list byte) : result Z :=
  match b with
  | b0 :: b1 :: b2 :: b3 :: b4 :: b5 :: b6 :: b7 :: _ =>
      Ok (Z.lor (Z.lor (Z.lor (Z.lor (Z.lor (Z.lor (Z.lor
            (byte_to_Z b0)
            (Z.shiftl (byte_to_Z b1) 8))
            (Z.shiftl (byte_to_Z b2) 16))
            (Z.shiftl (byte_to_Z b3) 24))
            (Z.shiftl (byte_to_Z b4) 32))
            (Z.shiftl (byte_to_Z b5) 40))
            (Z.shiftl (byte_to_Z b6) 48))
            (Z.shiftl (byte_to_Z b7) 56))
  | _ => Panic IndexOutOfRange
  end.

Definition PutUint64 (b : list byte) (v : Z) : result (list byte) :=
  match b with
  | _ :: _ :: _ :: _ :: _ :: _ :: _ :: _ :: rest =>
      Ok (byte_of_Z v :: byte_of_Z (Z.shiftr v 8)
          :: byte_of_Z (Z.shiftr v 16) :: byte_of_Z (Z.shiftr v 24)
          :: byte_of_Z (Z.shiftr v 32) :: byte_of_Z (Z.shiftr v 40)
          :: byte_of_Z (Z.shiftr v 48) :: byte_of_Z (Z.shiftr v 56) :: rest)
  | _ => Panic IndexOutOfRange
  end.

(** ** The node and its accessors *)

Record BNode : Type := mkBNode { data : list byte }.

Definition bType (node : BNode) : result Z :=
  s ← slice (data node) 0 2; Uint16 s.

Definition numKeys (node : BNode) : result Z :=
  s ← slice (data node) 2 4; Uint16 s.

Definition setHeader (node : BNode) (bType numKeys : Z) : result BNode :=
  s ← slice (data node) 0 2;
  s' ← PutUint16 s bType;
  let d1 := write_back (data node) 0 s' in
  t ← slice d1 2 4;
  t' ← PutUint16 t numKeys;
  Ok (mkBNode (write_back d1 2 t')).

Definition getPtr (node : BNode) (i : Z) : result Z :=
  let pos := add16 Header (mul16 i 8) in
  s ← slice (data node) pos (add16 pos 8);
  Uint64 s.

Definition setPtr (node : BNode) (i : Z) (ptr : Z) : result BNode :=
  let pos := add16 Header (mul16 i 8) in
  s ← slice (data node) pos (add16 pos 8);
  s' ← PutUint64 s ptr;
  Ok (mkBNode (write_back (data node) pos s')).

(** func offsetPos(node *BNode, idx uint16) uint16; the condition of its
    assertion is a short-circuit conjunction, so [numKeys] is only read
    when [1 <= idx]. *)
Definition offsetPos (node : BNode) (idx : Z) : result Z :=
  cond ← (if 1 <=? idx
          then nk ← numKeys node; Ok (idx <=? nk)
          else Ok false);
  _ ← assert cond "offsetPos: idx out of range";
  nk ← numKeys node;
  Ok (add16 (add16 Header (mul16 nk 8)) (mul16 (sub16 idx 1) 2)).

Definition getOffset (node : BNode) (idx : Z) : result Z :=
  pos ← offsetPos node idx;
  s ← slice (data node) pos (add16 pos 2);
  Uint16 s.

Definition setOffset (node : BNode) (idx : Z) (offset : Z) : result BNode :=
  pos ← offsetPos node idx;
  s ← slice (data node) pos (add16 pos 2);
  s' ← PutUint16 s offset;
  Ok (mkBNode (write_back (data node) pos s')).

Definition kvPos (node : BNode) (idx : Z) : result Z :=
  nk ← numKeys node;
  _ ← assert (idx <=? nk) "kvPos: idx out of range";
  nk1 ← numKeys node;
  nk2 ← numKeys node;
  off ← getOffset node idx;
  Ok (add16 (add16 (add16 Header (mul16 8 nk1)) (mul16 2 nk2)) off).

Definition getKey (node : BNode) (idx : Z) : result (list byte) :=
  nk ← numKeys node;
  _ ← assert (idx <=? nk) "getKey: idx out of range";
  pos ← kvPos node idx;
  s ← slice (data node) pos (add16 pos 2);
  klen ← Uint16 s;
  slice (data node) (add16 pos 4) (add16 (add16 pos 4) klen).

Definition getVal (node : BNode) (idx : Z) : result (list byte) :=
  nk ← numKeys node;
  _ ← assert (idx <=? nk) "getVal: idx out of range";
  pos ← kvPos node idx;
  s ← slice (data node) pos (add16 pos 2);
  klen ← Uint16 s;
  t ← slice (data node) (add16 pos 2) (add16 pos 4);
  vlen ← Uint16 t;
  slice (data node) (add16 (add16 pos 4) klen)
        (add16 (add16 (add16 pos 4) klen) vlen).

(** node size in bytes *)
Definition numBytes (node : BNode) : result Z :=
  nk ← numKeys node;
  kvPos node nk.

(** ** Auxiliary notions used to state the properties *)

(** The value of a little-endian byte string, and the bytes of a value. *)
Fixpoint le_value (l : list byte) : Z :=
  match l with
  | [] => 0
  | b :: t => byte_to_Z b + 256 * le_value t
  end.

Fixpoint le_bytes (n : nat) (v : Z) : list byte :=
  match n with
  | O => []
  | S m => byte_of_Z v :: le_bytes m (v / 256)
  end.

(** The [n] bytes of [d] that start at position [pos]. *)
Definition bytes_at (d : list byte) (pos : Z) (n : nat) : list byte :=
  take n (drop (Z.to_nat pos) d).

(** A field of [w] bytes at [pos] lies inside the buffer and its end does
    not wrap around in 16-bit arithmetic. *)
Definition field_in (d : list byte) (pos w : Z) : Prop :=
  0 <= pos /\ pos + w < 2 ^ 16 /\ pos + w <= Z.of_nat (length d).

(** The panic messages of the four assertions. *)
Definition offsetPos_msg : string := "assertion failed: offsetPos: idx out of range".
Definition kvPos_msg : string := "assertion failed: kvPos: idx out of range".
Definition getKey_msg : string := "assertion failed: getKey: idx out of range".
Definition getVal_msg : string := "assertion failed: getVal: idx out of range".

(** The record position as the specification words it: header size plus
    pointer-array size plus offset-array size plus the end of the record
    before record [i], records counted from 0; record 0 has no
    predecessor, and the end before it is 0.  The end of record [j] is
    the entry the offset array keeps for it, the slot of index [j + 1]
    (the array has its stored entries at indices 1 to the key count).
    It is stated only to be compared with [kvPos]. *)
Definition recordEnd_spec (node : BNode) (j : Z) : result Z :=
  getOffset node (j + 1).

Definition recordPosition_spec (node : BNode) (i : Z) : result Z :=
  nk ← numKeys node;
  e ← (if i =? 0 then Ok 0 else recordEnd_spec node (i - 1));
  Ok (Header + 8 * nk + 2 * nk + e).

(** ** The documented layout

    The comment above [BNode] gives the page image of a node:
    type (2B), nkeys (2B), nkeys pointers (8B each), nkeys offsets (2B
    each), then the packed pairs, each klen (2B), vlen (2B), key, val. *)

Definition record_bytes (key val : list byte) : list byte :=
  le_bytes 2 (Z.of_nat (length key)) ++ le_bytes 2 (Z.of_nat (length val))
  ++ key ++ val.

Definition record_size (kv : list byte * list byte) : Z :=
  4 + Z.of_nat (length kv.1) + Z.of_nat (length kv.2).

(** End of each record, relative to the start of the record region. *)
Fixpoint entry_ends (start : Z) (recs : list (list byte * list byte)) : list Z :=
  match recs with
  | [] => []
  | kv :: t => (start + record_size kv) :: entry_ends (start + record_size kv) t
  end.

Definition node_image (kind : Z) (ptrs : list Z)
    (recs : list (list byte * list byte)) : list byte :=
  le_bytes 2 kind ++ le_bytes 2 (Z.of_nat (length recs))
  ++ concat (map (le_bytes 8) ptrs)
  ++ concat (map (le_bytes 2) (entry_ends 0 recs))
  ++ concat (map (fun kv => record_bytes kv.1 kv.2) recs).

(** The node whose buffer starts with the layout of the given kind,
    pointers and records and goes on with [pad]. *)
Definition image_node (kind : Z) (ptrs : list Z)
    (recs : list (list byte * list byte)) (pad : list byte) : BNode :=
  mkBNode (node_image kind ptrs recs ++ pad).

(** The fields of a node fit their widths and the node fits the 16-bit
    positions of the codec. *)
Definition well_sized (kind : Z) (ptrs : list Z)
    (recs : list (list byte * list byte)) : Prop :=
  0 <= kind < 2 ^ 16 /\
  length ptrs = length recs /\
  Forall (fun p => 0 <= p < 2 ^ 64) ptrs /\
  Z.of_nat (length (node_image kind ptrs recs)) < 2 ^ 16.

(** [node], with [nk] keys, holds the pair [kv] as record number [i]
    (counted from 0) when the record bytes lie [start] bytes into the
    record region and the offset slot of index [i + 1] stores the end of
    the record. *)
Definition holds_record (node : BNode) (nk i start : Z)
    (kv : list byte * list byte) : Prop :=
  bytes_at (data node) (Header + 8 * nk + 2 * nk + start)
           (Z.to_nat (record_size kv))
  = record_bytes kv.1 kv.2 /\
  getOffset node (i + 1) = Ok (start + record_size kv).

(** ** Sample nodes *)

(** A page holding a leaf with the two pairs ("k0","a") and ("k1","b"):
    38 bytes of node, the rest of the page zero. *)
Definition sampleLeaf : BNode :=
  mkBNode (node_image BNode_Leaf [0; 0]
             [(list_byte_of_string "k0", list_byte_of_string "a");
              (list_byte_of_string "k1", list_byte_of_string "b")]
           ++ replicate (4096 - 38) Byte.x00).

(** A zeroed page, as [make([]byte, BTreePageSize)] gives it. *)
Definition zeroPage : BNode := mkBNode (replicate (Z.to_nat BTreePageSize) Byte.x00).

(** A page holding a leaf with no key: header only. *)
Definition emptyLeaf : BNode :=
  mkBNode (node_image BNode_Leaf [] [] ++ replicate 4092 Byte.x00).

(** A node with two pairs of the largest admitted key and value. *)
Definition maxKey : list byte := replicate (Z.to_nat BTreeMaxKeySize) Byte.x00.
Definition maxVal : list byte := replicate (Z.to_nat BTreeMaxValSize) Byte.x00.

Definition twoMaxRecords : BNode :=
  mkBNode (node_image BNode_Leaf [0; 0] [(maxKey, maxVal); (maxKey, maxVal)]).

Definition oneMaxRecord : BNode :=
  mkBNode (node_image BNode_Leaf [0] [(maxKey, maxVal)]).

(** ** Building a node

    The Node Builder is not in the sources.  The specification has a node
    encoded by writing the header with [setHeader], each child pointer
    with [setPtr], each entry end with [setOffset] and each record at its
    record position. *)

(** Modelled from the spec: the record write of the Node Builder.  A
    record is length-prefixed: 2-byte key length, 2-byte value length, key
    bytes, value bytes, copied into the page at [pos]. *)
Definition writeRecord (node : BNode) (pos : Z) (key val : list byte)
    : result BNode :=
  let r := record_bytes key val in
  _ ← slice (data node) pos (pos + Z.of_nat (length r));
  Ok (mkBNode (write_back (data node) pos r)).

(** Modelled from the spec: the entries of the Node Builder's encoding,
    in order.  Entry [i] gets its child pointer, its record at the record
    position, header size plus pointer-array size plus offset-array size
    plus the end of the previous record (0 for the first), and its end in
    the offset slot of index [i + 1]. *)
Fixpoint writeEntries (node : BNode) (nk i start : Z)
    (es : list (Z * list byte * list byte)) : result BNode :=
  match es with
  | [] => Ok node
  | (ptr, key, val) :: t =>
      n1 ← setPtr node i ptr;
      n2 ← writeRecord n1 (Header + 8 * nk + 2 * nk + start) key val;
      n3 ← setOffset n2 (i + 1) (start + record_size (key, val));
      writeEntries n3 nk (i + 1) (start + record_size (key, val)) t
  end.

(** Modelled from the spec: the Node Builder's encoding of a node of the
    given kind and entries on a fresh page: header first, then the
    entries. *)
Definition encodeNode (kind : Z) (es : list (Z * list byte * list byte))
    : result BNode :=
  n0 ← setHeader zeroPage kind (Z.of_nat (length es));
  writeEntries n0 (Z.of_nat (length es)) 0 0 es.

(** The page that [encodeNode] gives for the single pair ("a","1"). *)
Definition leafA1 : BNode :=
  mkBNode (node_image BNode_Leaf [0]
             [(list_byte_of_string "a", list_byte_of_string "1")]
           ++ replicate (4096 - 20) Byte.x00).

(** ** The tree

    [BTree] has the root page number and the three page callbacks; the
    state behind the callbacks is the map of live pages, and the calls
    made to [new] and [del] are recorded. *)
Inductive storeCall : Type :=
  | CallNew (node : BNode)
  | CallDel (ptr : Z).

Record BTree : Type := mkBTree {
  root : Z;
  pages : gmap Z BNode;
  calls : list storeCall
}.

Inductive insertError : Type :=
  | ErrOversize.

Section Insert.

(** The descent and copy-on-write path of an insertion that passed the
    size check; the sources do not have it and no property below depends
    on it. *)
Variable insertPath : BTree -> list byte -> list byte -> BTree.

(** Modelled from the spec: [Insert] is not in the sources, which only
    declare [BTree].  The specification has it fail immediately, with no
    tree mutation, if [len(key) > 1000] or [len(value) > 3000], and
    otherwise descend to the leaf and rebuild the path. *)
Definition Insert (t : BTree) (key val : list byte)
    : BTree * option insertError :=
  if (BTreeMaxKeySize <? Z.of_nat (length key))
     || (BTreeMaxValSize <? Z.of_nat (length val))
  then (t, Some ErrOversize)
  else (insertPath t key val, None).

End Insert.

(** A tree with one live page, an insertion path that would change all of
    the tree, and a key one byte over the limit. *)
Definition oneLeafTree : BTree := mkBTree 7 (<[7 := emptyLeaf]> ∅) [].

Definition replaceRoot (t : BTree) (key val : list byte) : BTree :=
  mkBTree (root t + 1)
          (<[root t + 1 := emptyLeaf]> (delete (root t) (pages t)))
          (CallDel (root t) :: CallNew emptyLeaf :: calls t).

Definition oversizeKey : list byte := replicate 1001 Byte.x00.

(** The pointers and records of [sampleLeaf]. *)
Definition samplePtrs : list Z := [0; 0].

Definition sampleRecs : list (list byte * list byte) :=
  [(list_byte_of_string "k0", list_byte_of_string "a");
   (list_byte_of_string "k1", list_byte_of_string "b")].

(** * The log file (package main)

    [LogCreate] and [LogAppend] work on an [os.File].  The file system
    is modelled as far as the two functions use it: a file is its bytes,
    kept apart from the bytes that [Sync] has made durable; an open file
    is a path with the file offset that [OpenFile] and [Write] maintain.
    Whether a system call fails is decided outside the program, so each
    call takes its fault as an argument. *)

Definition error : Type := string.

Record FS : Type := mkFS {
  files : string -> option (list byte);     (* content, by path *)
  durable : string -> option (list byte)    (* content as last synced *)
}.

Record File : Type := mkFile {
  fpath : string;
  fappend : bool;      (* opened with O_APPEND *)
  foffset : nat
}.

Record openFlag : Type := mkOpenFlag {
  o_creat : bool;
  o_append : bool;
  o_trunc : bool
}.

(** os.O_RDWR|os.O_CREATE: neither O_APPEND nor O_TRUNC. *)
Definition O_RDWR_or_O_CREATE : openFlag :=
  mkOpenFlag true false false.

Definition set_file (m : string -> option (list byte)) (path : string)
    (c : list byte) : string -> option (list byte) :=
  fun p => if String.eqb p path then Some c else m p.

(** os.OpenFile: a missing file is created empty when O_CREATE is given,
    an existing one is kept as it is unless O_TRUNC is given; the offset
    of the new open file is 0. *)
Definition OpenFile (fault : option error) (fs : FS) (path : string)
    (flag : openFlag) (perm : Z) : FS * (File + error) :=
  match fault with
  | Some e => (fs, inr e)
  | None =>
      match files fs path with
      | None =>
          if o_creat flag
          then (mkFS (set_file (files fs) path []) (durable fs),
                inl (mkFile path (o_append flag) 0))
          else (fs, inr "no such file or directory"%string)
      | Some c =>
          ((if o_trunc flag
            then mkFS (set_file (files fs) path []) (durable fs)
            else fs),
           inl (mkFile path (o_append flag) 0))
      end
  end.

(** The content of a file after [buf] is written at offset [off]; a gap
    between the end of the file and [off] reads as zero bytes. *)
Definition write_at (c : list byte) (off : nat) (buf : list byte) : list byte :=
  take off c ++ replicate (off - length c) Byte.x00 ++ buf
  ++ drop (off + length buf) c.

(** File.Write: the bytes go to the file offset, or to the end of the
    file under O_APPEND, and the offset moves past them.  A failing write
    has written the first [k] bytes of the buffer; it returns their number
    and the error. *)
Definition Write (fault : option (nat * error)) (fs : FS) (fp : File)
    (buf : list byte) : FS * File * (nat * option error) :=
  match files fs (fpath fp) with
  | None => (fs, fp, (0%nat, Some "file already closed"%string))
  | Some c =>
      let off := if fappend fp then length c else foffset fp in
      let written := match fault with
                     | Some (k, _) => take k buf
                     | None => buf
                     end in
      (mkFS (set_file (files fs) (fpath fp) (write_at c off written)) (durable fs),
       mkFile (fpath fp) (fappend fp) (off + length written),
       (length written, match fault with
                        | Some (_, e) => Some e
                        | None => None
                        end))
  end.

(** File.Sync: what the file holds becomes durable. *)
Definition Sync (fault : option error) (fs : FS) (fp : File)
    : FS * option error :=
  match fault with
  | Some e => (fs, Some e)
  | None =>
      match files fs (fpath fp) with
      | None => (fs, Some "file already closed"%string)
      | Some c => (mkFS (files fs) (set_file (durable fs) (fpath fp) c), None)
      end
  end.

(** func LogCreate(path string), returning the open file or an error *)
Definition LogCreate (fault : option error) (fs : FS) (path : string)
    : FS * (File + error) :=
  OpenFile fault fs path O_RDWR_or_O_CREATE 436.   (* 0664 *)

Definition newline : byte := Byte.x0a.

(** func LogAppend(fp *os.File, line string) error; the open file is
    passed in and out, as its offset moves. *)
Definition LogAppend (wfault : option (nat * error)) (sfault : option error)
    (fs : FS) (fp : File) (line : list byte) : FS * File * option error :=
  let buf := line in
  let buf := buf ++ [newline] in
  let '(fs1, fp1, (_, err)) := Write wfault fs fp buf in
  match err with
  | Some e => (fs1, fp1, Some e)
  | None =>
      let '(fs2, err2) := Sync sfault fs1 fp1 in
      (fs2, fp1, err2)
  end.

(** Appending the lines of a list in order, with no fault; used to state
    how calls of [LogAppend] compose. *)
Fixpoint appendLines (fs : FS) (fp : File) (ls : list (list byte))
    : FS * File * option error :=
  match ls with
  | [] => (fs, fp, None)
  | l :: t =>
      let '(fs1, fp1, err) := LogAppend None None fs fp l in
      match err with
      | Some e => (fs1, fp1, Some e)
      | None => appendLines fs1 fp1 t
      end
  end.

(** The content of a log that holds the given lines. *)
Definition log_of (ls : list (list byte)) : list byte :=
  concat (map (fun l => l ++ [newline]) ls).

(** A file system with no file, and one with an old log. *)
Definition noFiles : FS := mkFS (fun _ => None) (fun _ => None).

Definition oldLog : list byte := list_byte_of_string "first entry".

Definition oneLog : FS :=
  mkFS (set_file (fun _ => None) "db.log" oldLog)
       (set_file (fun _ => None) "db.log" oldLog).

(** * Properties *)

(** ** Bytes and little-endian fields *)

Lemma byte_to_Z_range (b : byte) : 0 <= byte_to_Z b < 256.
Proof.
  unfold byte_to_Z. pose proof (Byte.to_N_bounded b). lia.
Qed.

Lemma byte_to_of_Z (v : Z) : byte_to_Z (byte_of_Z v) = v mod 256.
Proof.
  unfold byte_to_Z, byte_of_Z.
  assert (Hr : 0 <= v mod 256 < 256) by (apply Z.mod_pos_bound; lia).
  destruct (Byte.of_N (Z.to_N (v mod 256))) as [b|] eqn:E.
  - apply Byte.to_of_N in E. simpl. rewrite E. lia.
  - apply Byte.of_N_None_iff in E. lia.
Qed.

Lemma byte_of_to_Z (b : byte) : byte_of_Z (byte_to_Z b) = b.
Proof.
  unfold byte_of_Z. pose proof (byte_to_Z_range b) as Hr.
  rewrite Z.mod_small by lia. unfold byte_to_Z.
  rewrite N2Z.id, Byte.of_to_N. reflexivity.
Qed.

(** [lor] of a low part and a shifted high part is their sum. *)
Lemma land_shiftl_low (a b n : Z) :
  0 <= n -> 0 <= a < 2 ^ n -> Z.land a (Z.shiftl b n) = 0.
Proof.
  intros Hn Ha. apply Z.bits_inj'. intros k Hk.
  rewrite Z.land_spec, Z.bits_0.
  destruct (Z.lt_ge_cases k n) as [Hlt|Hge].
  - rewrite Z.shiftl_spec_low by lia. apply andb_false_r.
  - replace a with (a mod 2 ^ n) by (apply Z.mod_small; lia).
    rewrite Z.mod_pow2_bits_high by lia. reflexivity.
Qed.

Lemma lor_shiftl_add (a b n : Z) :
  0 <= n -> 0 <= a < 2 ^ n -> Z.lor a (Z.shiftl b n) = a + b * 2 ^ n.
Proof.
  intros Hn Ha.
  rewrite <- Z.shiftl_mul_pow2 by lia.
  pose proof (land_shiftl_low a b n Hn Ha) as H0.
  rewrite <- Z.lxor_lor by exact H0.
  symmetry. apply Z.add_nocarry_lxor. exact H0.
Qed.

Lemma length_le_bytes (n : nat) (v : Z) : length (le_bytes n v) = n.
Proof. revert v. induction n as [|n IH]; intros v; simpl; [|rewrite IH]; reflexivity. Qed.

Lemma le_value_range (l : list byte) :
  0 <= le_value l < 2 ^ (8 * Z.of_nat (length l)).
Proof.
  induction l as [|b t IH]; simpl le_value.
  - simpl. lia.
  - pose proof (byte_to_Z_range b) as Hb.
    replace (8 * Z.of_nat (length (b :: t))) with (8 + 8 * Z.of_nat (length t))
      by (simpl length; lia).
    rewrite Z.pow_add_r by lia. change (2 ^ 8) with 256. nia.
Qed.

Lemma le_value_bytes (n : nat) (v : Z) :
  le_value (le_bytes n v) = v mod 2 ^ (8 * Z.of_nat n).
Proof.
  revert v. induction n as [|n IH]; intros v.
  - simpl. symmetry. apply Z.mod_1_r.
  - cbn [le_bytes le_value]. rewrite IH, byte_to_of_Z.
    replace (8 * Z.of_nat (S n)) with (8 + 8 * Z.of_nat n) by lia.
    rewrite Z.pow_add_r by lia. change (2 ^ 8) with 256.
    rewrite Z.rem_mul_r by lia. reflexivity.
Qed.

Lemma le_bytes_value (l : list byte) : le_bytes (length l) (le_value l) = l.
Proof.
  induction l as [|b t IH]; [reflexivity|].
  cbn [length le_bytes le_value].
  pose proof (byte_to_Z_range b) as Hb.
  assert (Hm : (byte_to_Z b + 256 * le_value t) mod 256 = byte_to_Z b).
  { symmetry. apply Z.mod_unique with (q := le_value t); lia. }
  assert (Hd : (byte_to_Z b + 256 * le_value t) / 256 = le_value t).
  { symmetry. apply Z.div_unique with (r := byte_to_Z b); lia. }
  f_equal.
  - rewrite <- (byte_of_to_Z b) at 2. unfold byte_of_Z.
    rewrite Hm, Z.mod_small by lia. reflexivity.
  - rewrite Hd. exact IH.
Qed.

Lemma Uint16_le (b0 b1 : byte) (r : list byte) :
  Uint16 (b0 :: b1 :: r) = Ok (le_value [b0; b1]).
Proof.
  unfold Uint16. cbn [le_value]. f_equal.
  pose proof (byte_to_Z_range b0).
  rewrite lor_shiftl_add by lia. lia.
Qed.

Lemma PutUint16_le (b0 b1 : byte) (r : list byte) (v : Z) :
  PutUint16 (b0 :: b1 :: r) v = Ok (le_bytes 2 v ++ r).
Proof.
  unfold PutUint16. cbn [le_bytes app].
  rewrite Z.shiftr_div_pow2 by lia. reflexivity.
Qed.

Lemma Uint64_le (b0 b1 b2 b3 b4 b5 b6 b7 : byte) (r : list byte) :
  Uint64 (b0 :: b1 :: b2 :: b3 :: b4 :: b5 :: b6 :: b7 :: r)
  = Ok (le_value [b0; b1; b2; b3; b4; b5; b6; b7]).
Proof.
  unfold Uint64. cbn [le_value]. f_equal.
  pose proof (byte_to_Z_range b0). pose proof (byte_to_Z_range b1).
  pose proof (byte_to_Z_range b2). pose proof (byte_to_Z_range b3).
  pose proof (byte_to_Z_range b4). pose proof (byte_to_Z_range b5).
  pose proof (byte_to_Z_range b6). pose proof (byte_to_Z_range b7).
  rewrite (lor_shiftl_add (byte_to_Z b0)) by lia.
  rewrite (lor_shiftl_add _ (byte_to_Z b2)) by lia.
  rewrite (lor_shiftl_add _ (byte_to_Z b3)) by lia.
  rewrite (lor_shiftl_add _ (byte_to_Z b4)) by lia.
  rewrite (lor_shiftl_add _ (byte_to_Z b5)) by lia.
  rewrite (lor_shiftl_add _ (byte_to_Z b6)) by lia.
  rewrite (lor_shiftl_add _ (byte_to_Z b7)) by lia.
  lia.
Qed.

Lemma PutUint64_le (b0 b1 b2 b3 b4 b5 b6 b7 : byte) (r : list byte) (v : Z) :
  PutUint64 (b0 :: b1 :: b2 :: b3 :: b4 :: b5 :: b6 :: b7 :: r) v
  = Ok (le_bytes 8 v ++ r).
Proof.
  unfold PutUint64. cbn [le_bytes app].
  rewrite !Z.shiftr_div_pow2 by lia.
  rewrite !Z.div_div by lia.
  reflexivity.
Qed.

(** ** Reading and writing inside the buffer *)

Section Buffer.
Local Open Scope nat_scope.
Implicit Types (d s : list byte) (n m i : nat).

Lemma lookup_window d n m i :
  take m (drop n d) !! i = if decide (i < m) then d !! (n + i) else None.
Proof. rewrite lookup_take. case_decide; [apply lookup_drop|reflexivity]. Qed.

Lemma length_window d n m :
  n + m <= length d -> length (take m (drop n d)) = m.
Proof. intros H. rewrite length_take, length_drop. lia. Qed.

Lemma lookup_splice d n s i :
  n + length s <= length d ->
  (take n d ++ s ++ drop (n + length s) d) !! i =
    if decide (i < n) then d !! i
    else if decide (i < n + length s) then s !! (i - n)
    else d !! i.
Proof.
  intros Hlen.
  assert (Hn : length (take n d) = n) by (rewrite length_take; lia).
  case_decide as H1.
  - rewrite lookup_app_l by lia. apply lookup_take_lt. exact H1.
  - rewrite lookup_app_r by lia. rewrite Hn.
    case_decide as H2.
    + apply lookup_app_l. lia.
    + rewrite lookup_app_r by lia. rewrite lookup_drop. f_equal. lia.
Qed.

Lemma length_splice d n s :
  n + length s <= length d ->
  length (take n d ++ s ++ drop (n + length s) d) = length d.
Proof.
  intros H. rewrite !length_app, length_take, length_drop. lia.
Qed.

Lemma window_splice_same d n s :
  n + length s <= length d ->
  take (length s) (drop n (take n d ++ s ++ drop (n + length s) d)) = s.
Proof.
  intros H. apply list_eq. intros i.
  rewrite lookup_window. case_decide as Hi.
  - rewrite lookup_splice by exact H.
    rewrite decide_False by lia. rewrite decide_True by lia.
    f_equal. lia.
  - symmetry. apply lookup_ge_None. lia.
Qed.

Lemma window_splice_other d n s k m :
  n + length s <= length d ->
  k + m <= n \/ n + length s <= k ->
  take m (drop k (take n d ++ s ++ drop (n + length s) d)) = take m (drop k d).
Proof.
  intros H Hdisj. apply list_eq. intros i.
  rewrite !lookup_window. case_decide as Hi; [|reflexivity].
  rewrite lookup_splice by exact H.
  destruct Hdisj.
  - rewrite decide_True by lia. reflexivity.
  - rewrite decide_False by lia. rewrite decide_False by lia. reflexivity.
Qed.
End Buffer.

Lemma slice_ok (d : list byte) (lo hi : Z) :
  0 <= lo <= hi -> hi <= Z.of_nat (length d) ->
  slice d lo hi = Ok (bytes_at d lo (Z.to_nat (hi - lo))).
Proof.
  intros [H0 H1] H2. unfold slice, bytes_at.
  rewrite (proj2 (Z.leb_le 0 lo) H0), (proj2 (Z.leb_le lo hi) H1),
    (proj2 (Z.leb_le hi _) H2).
  reflexivity.
Qed.

Lemma slice_panics (d : list byte) (lo hi : Z) :
  hi < lo \/ Z.of_nat (length d) < hi ->
  slice d lo hi = Panic SliceBoundsOutOfRange.
Proof.
  intros H. unfold slice.
  destruct (0 <=? lo); [|reflexivity].
  destruct (Z.leb_spec lo hi); [|reflexivity].
  destruct (Z.leb_spec hi (Z.of_nat (length d))); [lia|reflexivity].
Qed.

Lemma length_bytes_at (d : list byte) (pos : Z) (n : nat) :
  0 <= pos -> pos + Z.of_nat n <= Z.of_nat (length d) ->
  length (bytes_at d pos n) = n.
Proof. intros H0 H. unfold bytes_at. apply length_window. lia. Qed.

Lemma length_write_back (d : list byte) (lo : Z) (s : list byte) :
  0 <= lo -> lo + Z.of_nat (length s) <= Z.of_nat (length d) ->
  length (write_back d lo s) = length d.
Proof. intros H0 H. unfold write_back. apply length_splice. lia. Qed.

Lemma bytes_at_write_back_same (d : list byte) (lo : Z) (s : list byte) :
  0 <= lo -> lo + Z.of_nat (length s) <= Z.of_nat (length d) ->
  bytes_at (write_back d lo s) lo (length s) = s.
Proof. intros H0 H. unfold bytes_at, write_back. apply window_splice_same. lia. Qed.

Lemma bytes_at_write_back_other (d : list byte) (lo : Z) (s : list byte)
    (pos : Z) (n : nat) :
  0 <= lo -> lo + Z.of_nat (length s) <= Z.of_nat (length d) ->
  0 <= pos ->
  pos + Z.of_nat n <= lo \/ lo + Z.of_nat (length s) <= pos ->
  bytes_at (write_back d lo s) pos n = bytes_at d pos n.
Proof.
  intros H0 H Hp Hd. unfold bytes_at, write_back.
  apply window_splice_other; lia.
Qed.

Lemma Uint16_exact (l : list byte) :
  length l = 2%nat -> Uint16 l = Ok (le_value l).
Proof.
  destruct l as [|b0 [|b1 [|? ?]]]; try discriminate. intros _. apply Uint16_le.
Qed.

Lemma PutUint16_exact (l : list byte) (v : Z) :
  length l = 2%nat -> PutUint16 l v = Ok (le_bytes 2 v).
Proof.
  destruct l as [|b0 [|b1 [|? ?]]]; try discriminate. intros _.
  rewrite PutUint16_le. rewrite app_nil_r. reflexivity.
Qed.

Lemma Uint64_exact (l : list byte) :
  length l = 8%nat -> Uint64 l = Ok (le_value l).
Proof.
  destruct l as [|b0 [|b1 [|b2 [|b3 [|b4 [|b5 [|b6 [|b7 [|? ?]]]]]]]]];
    try discriminate.
  intros _. apply Uint64_le.
Qed.

Lemma PutUint64_exact (l : list byte) (v : Z) :
  length l = 8%nat -> PutUint64 l v = Ok (le_bytes 8 v).
Proof.
  destruct l as [|b0 [|b1 [|b2 [|b3 [|b4 [|b5 [|b6 [|b7 [|? ?]]]]]]]]];
    try discriminate.
  intros _. rewrite PutUint64_le. rewrite app_nil_r. reflexivity.
Qed.

Lemma add16_small (a b : Z) : 0 <= a + b < 2 ^ 16 -> add16 a b = a + b.
Proof. intros H. unfold add16, u16. apply Z.mod_small. exact H. Qed.

Lemma mul16_small (a b : Z) : 0 <= a * b < 2 ^ 16 -> mul16 a b = a * b.
Proof. intros H. unfold mul16, u16. apply Z.mod_small. exact H. Qed.

Lemma sub16_small (a b : Z) : 0 <= a - b < 2 ^ 16 -> sub16 a b = a - b.
Proof. intros H. unfold sub16, u16. apply Z.mod_small. exact H. Qed.

Lemma read_field16 (d : list byte) (pos : Z) :
  field_in d pos 2 ->
  (slice d pos (add16 pos 2) ≫= Uint16) = Ok (le_value (bytes_at d pos 2)).
Proof.
  intros (H0 & H1 & H2).
  rewrite add16_small by lia. rewrite slice_ok by lia.
  replace (Z.to_nat (pos + 2 - pos)) with 2%nat by lia.
  cbn [mbind result_bind]. apply Uint16_exact. apply length_bytes_at; lia.
Qed.

Lemma read_field64 (d : list byte) (pos : Z) :
  field_in d pos 8 ->
  (slice d pos (add16 pos 8) ≫= Uint64) = Ok (le_value (bytes_at d pos 8)).
Proof.
  intros (H0 & H1 & H2).
  rewrite add16_small by lia. rewrite slice_ok by lia.
  replace (Z.to_nat (pos + 8 - pos)) with 8%nat by lia.
  cbn [mbind result_bind]. apply Uint64_exact. apply length_bytes_at; lia.
Qed.

Lemma write_field16 (d : list byte) (pos v : Z) :
  field_in d pos 2 ->
  (s ← slice d pos (add16 pos 2); s' ← PutUint16 s v;
   Ok (mkBNode (write_back d pos s')))
  = Ok (mkBNode (write_back d pos (le_bytes 2 v))).
Proof.
  intros (H0 & H1 & H2).
  rewrite add16_small by lia. rewrite slice_ok by lia.
  replace (Z.to_nat (pos + 2 - pos)) with 2%nat by lia.
  cbn [mbind result_bind].
  rewrite PutUint16_exact by (apply length_bytes_at; lia).
  reflexivity.
Qed.

Lemma write_field64 (d : list byte) (pos v : Z) :
  field_in d pos 8 ->
  (s ← slice d pos (add16 pos 8); s' ← PutUint64 s v;
   Ok (mkBNode (write_back d pos s')))
  = Ok (mkBNode (write_back d pos (le_bytes 8 v))).
Proof.
  intros (H0 & H1 & H2).
  rewrite add16_small by lia. rewrite slice_ok by lia.
  replace (Z.to_nat (pos + 8 - pos)) with 8%nat by lia.
  cbn [mbind result_bind].
  rewrite PutUint64_exact by (apply length_bytes_at; lia).
  reflexivity.
Qed.

(** ** The header *)

Lemma bType_eq (node : BNode) :
  2 <= Z.of_nat (length (data node)) ->
  bType node = Ok (le_value (bytes_at (data node) 0 2)).
Proof.
  intros H. unfold bType. rewrite slice_ok by lia.
  cbn [mbind result_bind]. apply Uint16_exact. apply length_bytes_at; lia.
Qed.

Lemma numKeys_eq (node : BNode) :
  4 <= Z.of_nat (length (data node)) ->
  numKeys node = Ok (le_value (bytes_at (data node) 2 2)).
Proof.
  intros H. unfold numKeys. rewrite slice_ok by lia.
  cbn [mbind result_bind]. apply Uint16_exact. apply length_bytes_at; lia.
Qed.

Lemma numKeys_range (node : BNode) (nk : Z) :
  numKeys node = Ok nk -> 0 <= nk < 2 ^ 16.
Proof.
  unfold numKeys, slice.
  destruct ((0 <=? 2) && (2 <=? 4) && (4 <=? Z.of_nat (length (data node))));
    [|discriminate].
  cbn [mbind result_bind].
  destruct (take (Z.to_nat (4 - 2)) (drop (Z.to_nat 2) (data node)))
    as [|b0 [|b1 r]]; try discriminate.
  rewrite Uint16_le. intros [= <-].
  pose proof (le_value_range [b0; b1]) as Hr. simpl length in Hr. exact Hr.
Qed.

Lemma numKeys_length (node : BNode) (nk : Z) :
  numKeys node = Ok nk -> 4 <= Z.of_nat (length (data node)).
Proof.
  unfold numKeys, slice.
  destruct (Z.leb_spec 4 (Z.of_nat (length (data node)))) as [H|H];
    [intros _; exact H|].
  rewrite andb_false_r. discriminate.
Qed.

Lemma header_fields (b0 b1 b2 b3 : byte) (rest : list byte) (t n : Z) :
  let node := mkBNode (b0 :: b1 :: b2 :: b3 :: rest) in
  bType node = Ok (byte_to_Z b0 + 256 * byte_to_Z b1) /\
  numKeys node = Ok (byte_to_Z b2 + 256 * byte_to_Z b3) /\
  setHeader node t n
  = Ok (mkBNode (byte_of_Z t :: byte_of_Z (t / 256)
                 :: byte_of_Z n :: byte_of_Z (n / 256) :: rest)).
Proof.
  intros node.
  assert (Hlen : 4 <= Z.of_nat (length (data node))) by (cbn [node data length]; lia).
  split; [|split].
  - rewrite bType_eq by lia. unfold node, bytes_at.
    change (Z.to_nat 0) with 0%nat. cbn [data drop take le_value].
    f_equal. lia.
  - rewrite numKeys_eq by lia. unfold node, bytes_at.
    change (Z.to_nat 2) with 2%nat. cbn [data drop take le_value].
    rewrite take_0. cbn [le_value]. f_equal. lia.
  - unfold setHeader. rewrite slice_ok by lia.
    cbn [mbind result_bind].
    rewrite PutUint16_exact by (apply length_bytes_at; lia).
    cbn [mbind result_bind].
    assert (Hw : write_back (data node) 0 (le_bytes 2 t)
                 = byte_of_Z t :: byte_of_Z (t / 256) :: b2 :: b3 :: rest)
      by reflexivity.
    rewrite Hw. rewrite slice_ok by (cbn [length]; lia).
    cbn [mbind result_bind].
    rewrite PutUint16_exact by reflexivity.
    reflexivity.
Qed.

(** C7. The header is four bytes, little-endian: bytes 0-1 hold the kind
    tag (0 = internal, 1 = leaf) and bytes 2-3 the key count.  [bType] and
    [numKeys] return the 16-bit values of those two byte pairs, and
    [setHeader] stores the low and high bytes of its two arguments at
    exactly those four places, leaving the rest of the buffer alone. *)
Theorem header_layout (b0 b1 b2 b3 : byte) (rest : list byte) (t n : Z) :
  let node := mkBNode (b0 :: b1 :: b2 :: b3 :: rest) in
  Header = 4 /\ BNode_Node = 0 /\ BNode_Leaf = 1 /\
  bType node = Ok (byte_to_Z b0 + 256 * byte_to_Z b1) /\
  numKeys node = Ok (byte_to_Z b2 + 256 * byte_to_Z b3) /\
  setHeader node t n
  = Ok (mkBNode (byte_of_Z t :: byte_of_Z (t / 256)
                 :: byte_of_Z n :: byte_of_Z (n / 256) :: rest)).
Proof.
  intros node.
  split; [reflexivity|]. split; [reflexivity|]. split; [reflexivity|].
  apply (header_fields b0 b1 b2 b3 rest t n).
Qed.

(** What [setHeader] stored is what [bType] and [numKeys] read back. *)
Lemma setHeader_read (node : BNode) (t n : Z) :
  4 <= Z.of_nat (length (data node)) ->
  exists node',
    setHeader node t n = Ok node' /\
    length (data node') = length (data node) /\
    bType node' = Ok (u16 t) /\ numKeys node' = Ok (u16 n) /\
    drop 4 (data node') = drop 4 (data node).
Proof.
  destruct node as [[|b0 [|b1 [|b2 [|b3 rest]]]]]; cbn [data length]; try lia.
  intros _. eexists. split; [apply header_fields|].
  pose proof (header_fields (byte_of_Z t) (byte_of_Z (t / 256))
                 (byte_of_Z n) (byte_of_Z (n / 256)) rest 0 0) as H.
  cbv zeta in H. destruct H as (Hb & Hn & _).
  rewrite Hb, Hn, !byte_to_of_Z. cbn [data length drop].
  repeat split; f_equal; unfold u16; change (2 ^ 16) with (256 * 256);
    rewrite Z.rem_mul_r by lia; reflexivity.
Qed.

(** ** The offset array and the record positions *)

Lemma offsetPos_in_range (node : BNode) (nk idx : Z) :
  numKeys node = Ok nk -> 1 <= idx <= nk ->
  offsetPos node idx
  = Ok (add16 (add16 Header (mul16 nk 8)) (mul16 (sub16 idx 1) 2)).
Proof.
  intros Hnk [H1 H2]. unfold offsetPos.
  rewrite (proj2 (Z.leb_le 1 idx) H1), Hnk. cbn [mbind result_bind].
  rewrite (proj2 (Z.leb_le idx nk) H2). reflexivity.
Qed.

Lemma offsetPos_out_of_range (node : BNode) (nk idx : Z) :
  numKeys node = Ok nk -> ~ (1 <= idx <= nk) ->
  offsetPos node idx = Panic (AssertionFailed offsetPos_msg).
Proof.
  intros Hnk Hout. unfold offsetPos.
  destruct (Z.leb_spec 1 idx) as [H1|H1]; [|reflexivity].
  rewrite Hnk. cbn [mbind result_bind].
  destruct (Z.leb_spec idx nk) as [H2|H2]; [lia|reflexivity].
Qed.

Lemma offsetPos_zero (node : BNode) :
  offsetPos node 0 = Panic (AssertionFailed offsetPos_msg).
Proof. reflexivity. Qed.

(** With no wrap-around the slot of index [idx] is at
    [Header + 8 * nk + 2 * (idx - 1)]. *)
Lemma offsetPos_exact (node : BNode) (nk idx : Z) :
  numKeys node = Ok nk -> 1 <= idx <= nk ->
  Header + 8 * nk + 2 * idx < 2 ^ 16 ->
  offsetPos node idx = Ok (Header + 8 * nk + 2 * (idx - 1)).
Proof.
  intros Hnk Hidx Hsmall. rewrite (offsetPos_in_range node nk idx Hnk Hidx).
  unfold Header in *.
  rewrite (sub16_small idx 1) by lia.
  rewrite (mul16_small nk 8) by lia.
  rewrite (mul16_small (idx - 1) 2) by lia.
  rewrite (add16_small 4) by lia.
  rewrite add16_small by lia.
  f_equal. lia.
Qed.

Lemma getOffset_out_of_range (node : BNode) (nk idx : Z) :
  numKeys node = Ok nk -> ~ (1 <= idx <= nk) ->
  getOffset node idx = Panic (AssertionFailed offsetPos_msg).
Proof.
  intros Hnk Hout. unfold getOffset.
  rewrite (offsetPos_out_of_range node nk idx Hnk Hout). reflexivity.
Qed.

Lemma setOffset_out_of_range (node : BNode) (nk idx v : Z) :
  numKeys node = Ok nk -> ~ (1 <= idx <= nk) ->
  setOffset node idx v = Panic (AssertionFailed offsetPos_msg).
Proof.
  intros Hnk Hout. unfold setOffset.
  rewrite (offsetPos_out_of_range node nk idx Hnk Hout). reflexivity.
Qed.

Lemma getOffset_in_range (node : BNode) (nk i : Z) :
  numKeys node = Ok nk -> 1 <= i <= nk ->
  field_in (data node) (4 + 8 * nk + 2 * (i - 1)) 2 ->
  offsetPos node i = Ok (4 + 8 * nk + 2 * (i - 1)) /\
  getOffset node i
  = Ok (le_value (bytes_at (data node) (4 + 8 * nk + 2 * (i - 1)) 2)).
Proof.
  intros Hnk Hi Hin.
  assert (Hpos : offsetPos node i = Ok (4 + 8 * nk + 2 * (i - 1))).
  { apply offsetPos_exact; [exact Hnk|exact Hi|].
    destruct Hin as (_ & H & _). unfold Header. lia. }
  split; [exact Hpos|].
  unfold getOffset. rewrite Hpos. cbn [mbind result_bind].
  apply read_field16. exact Hin.
Qed.

Lemma setOffset_in_range (node : BNode) (nk i v : Z) :
  numKeys node = Ok nk -> 1 <= i <= nk ->
  field_in (data node) (4 + 8 * nk + 2 * (i - 1)) 2 ->
  setOffset node i v
  = Ok (mkBNode (write_back (data node) (4 + 8 * nk + 2 * (i - 1))
                            (le_bytes 2 v))).
Proof.
  intros Hnk Hi Hin.
  destruct (getOffset_in_range node nk i Hnk Hi Hin) as [Hpos _].
  unfold setOffset. rewrite Hpos. cbn [mbind result_bind].
  apply write_field16. exact Hin.
Qed.

(** C9. The offset array has one stored 2-byte slot for each index
    1..keyCount and starts right after the [keyCount] child pointers: for
    [1 <= i <= keyCount], with the slot inside the buffer, [offsetPos] is
    [4 + 8 * keyCount + 2 * (i - 1)], [getOffset] returns the little-endian
    16-bit value of the two bytes there and [setOffset] stores the two
    bytes of its argument there; an index outside 1..keyCount has no slot:
    both accessors panic. *)
Theorem offset_array_layout (node : BNode) (nk i v : Z) :
  numKeys node = Ok nk ->
  1 <= i <= nk ->
  field_in (data node) (4 + 8 * nk + 2 * (i - 1)) 2 ->
  offsetPos node i = Ok (4 + 8 * nk + 2 * (i - 1)) /\
  getOffset node i
  = Ok (le_value (bytes_at (data node) (4 + 8 * nk + 2 * (i - 1)) 2)) /\
  setOffset node i v
  = Ok (mkBNode (write_back (data node) (4 + 8 * nk + 2 * (i - 1))
                            [byte_of_Z v; byte_of_Z (v / 256)])) /\
  (forall j w, j < 1 \/ nk < j ->
     is_Panic (getOffset node j) /\ is_Panic (setOffset node j w)).
Proof.
  intros Hnk Hi Hin.
  destruct (getOffset_in_range node nk i Hnk Hi Hin) as [Hpos Hget].
  split; [exact Hpos|]. split; [exact Hget|]. split.
  - apply (setOffset_in_range node nk i v Hnk Hi Hin).
  - intros j w Hout. split; eexists.
    + apply (getOffset_out_of_range node nk j Hnk). lia.
    + apply (setOffset_out_of_range node nk j w Hnk). lia.
Qed.

Example sampleLeaf_bytes :
  length (data sampleLeaf) = 4096%nat /\
  numKeys sampleLeaf = Ok 2 /\ bType sampleLeaf = Ok BNode_Leaf /\
  getOffset sampleLeaf 1 = Ok 7 /\ getOffset sampleLeaf 2 = Ok 14 /\
  kvPos sampleLeaf 1 = Ok 31 /\ kvPos sampleLeaf 2 = Ok 38 /\
  numBytes sampleLeaf = Ok 38 /\
  getKey sampleLeaf 1 = Ok (list_byte_of_string "k1") /\
  getVal sampleLeaf 1 = Ok (list_byte_of_string "b").
Proof. vm_compute. repeat split. Qed.

Lemma u16_add_l (a b : Z) : u16 (u16 a + b) = u16 (a + b).
Proof. unfold u16. apply Zplus_mod_idemp_l. Qed.

Lemma u16_add_r (a b : Z) : u16 (a + u16 b) = u16 (a + b).
Proof. unfold u16. apply Zplus_mod_idemp_r. Qed.

Lemma u16_small (a : Z) : 0 <= a < 2 ^ 16 -> u16 a = a.
Proof. intros H. unfold u16. apply Z.mod_small. exact H. Qed.

Lemma u16_add_mid (p q r : Z) : u16 (p + u16 q + r) = u16 (p + q + r).
Proof.
  replace (p + u16 q + r) with (u16 q + (p + r)) by lia.
  rewrite u16_add_l. f_equal. lia.
Qed.

Lemma kvPos_sum (nk off : Z) :
  add16 (add16 (add16 Header (mul16 8 nk)) (mul16 2 nk)) off
  = u16 (Header + 8 * nk + 2 * nk + off).
Proof.
  unfold add16, mul16.
  rewrite u16_add_l, u16_add_mid.
  replace (u16 (Header + u16 (8 * nk)) + 2 * nk + off)
    with (u16 (Header + u16 (8 * nk)) + (2 * nk + off)) by lia.
  rewrite u16_add_l.
  replace (Header + u16 (8 * nk) + (2 * nk + off))
    with (Header + u16 (8 * nk) + (2 * nk + off)) by lia.
  rewrite u16_add_mid. f_equal. lia.
Qed.

Lemma kvPos_in_range (node : BNode) (nk idx off : Z) :
  numKeys node = Ok nk -> idx <= nk -> getOffset node idx = Ok off ->
  kvPos node idx = Ok (u16 (Header + 8 * nk + 2 * nk + off)).
Proof.
  intros Hnk Hidx Hoff. unfold kvPos. rewrite Hnk. cbn [mbind result_bind].
  rewrite (proj2 (Z.leb_le idx nk) Hidx). cbn [assert mbind result_bind].
  rewrite Hoff. cbn [mbind result_bind]. rewrite kvPos_sum. reflexivity.
Qed.

Lemma kvPos_beyond (node : BNode) (nk idx : Z) :
  numKeys node = Ok nk -> nk < idx ->
  kvPos node idx = Panic (AssertionFailed kvPos_msg).
Proof.
  intros Hnk Hidx. unfold kvPos. rewrite Hnk. cbn [mbind result_bind].
  destruct (Z.leb_spec idx nk); [lia|reflexivity].
Qed.

(** Index 0 passes the assertion of [kvPos] and fails the one of
    [offsetPos]: [getOffset] has no case for it. *)
Lemma kvPos_zero (node : BNode) (nk : Z) :
  numKeys node = Ok nk ->
  kvPos node 0 = Panic (AssertionFailed offsetPos_msg).
Proof.
  intros Hnk. pose proof (numKeys_range node nk Hnk) as Hr.
  unfold kvPos. rewrite Hnk. cbn [mbind result_bind].
  rewrite (proj2 (Z.leb_le 0 nk)) by lia. reflexivity.
Qed.

Lemma numKeys_panics_kvPos (node : BNode) (p : panic) (idx : Z) :
  numKeys node = Panic p -> kvPos node idx = Panic p.
Proof. intros H. unfold kvPos. rewrite H. reflexivity. Qed.

(** C1. The record position of index 0.  The specification gives every
    index from 0 to the key count a record position, the one of index 0
    being [4 + 10 * keyCount], where the first record starts.  [kvPos]
    has it for the indices from 1 on: with the offset slot of [i] inside
    the buffer it does not panic and returns the 16-bit sum of header
    size, pointer-array size, offset-array size and the end of record
    [i - 1], which is the record position of the specification whenever
    that sum is below 2^16.  At index 0 it passes its own assertion and
    then panics in [offsetPos], on every node whose header can be read:
    [getOffset] has no case for the index whose entry is implicit. *)
Theorem kvPos_index_zero_panics (node : BNode) (nk : Z) :
  numKeys node = Ok nk ->
  recordPosition_spec node 0 = Ok (4 + 10 * nk) /\
  kvPos node 0 = Panic (AssertionFailed offsetPos_msg) /\
  (forall i, 1 <= i <= nk ->
     field_in (data node) (4 + 8 * nk + 2 * (i - 1)) 2 ->
     exists off,
       getOffset node i = Ok off /\
       off = le_value (bytes_at (data node) (4 + 8 * nk + 2 * (i - 1)) 2) /\
       recordPosition_spec node i = Ok (4 + 8 * nk + 2 * nk + off) /\
       kvPos node i = Ok (u16 (4 + 8 * nk + 2 * nk + off)) /\
       (4 + 8 * nk + 2 * nk + off < 2 ^ 16 ->
        kvPos node i = recordPosition_spec node i)).
Proof.
  intros Hnk. split; [|split].
  - unfold recordPosition_spec. rewrite Hnk. cbn [mbind result_bind Z.eqb].
    f_equal. unfold Header. lia.
  - apply (kvPos_zero node nk Hnk).
  - intros i Hi Hin.
    destruct (getOffset_in_range node nk i Hnk Hi Hin) as [_ Hget].
    eexists. split; [exact Hget|]. split; [reflexivity|].
    pose proof (kvPos_in_range node nk i _ Hnk (proj2 Hi) Hget) as Hkv.
    assert (Hspec : recordPosition_spec node i
                    = Ok (4 + 8 * nk + 2 * nk
                          + le_value (bytes_at (data node)
                                        (4 + 8 * nk + 2 * (i - 1)) 2))).
    { unfold recordPosition_spec, recordEnd_spec. rewrite Hnk.
      cbn [mbind result_bind].
      destruct (Z.eqb_spec i 0) as [E|_]; [lia|].
      replace (i - 1 + 1) with i by lia. rewrite Hget.
      cbn [mbind result_bind]. reflexivity. }
    split; [exact Hspec|]. split; [exact Hkv|].
    intros Hsmall. rewrite Hkv, Hspec. f_equal. apply u16_small.
    pose proof (le_value_range (bytes_at (data node) (4 + 8 * nk + 2 * (i - 1)) 2)).
    unfold Header in *. lia.
Qed.

Lemma kvPos_index_zero_panics_witness :
  recordPosition_spec sampleLeaf 0 = Ok (4 + 10 * 2) /\
  kvPos sampleLeaf 0 = Panic (AssertionFailed offsetPos_msg) /\
  (forall i, 1 <= i <= 2 ->
     field_in (data sampleLeaf) (4 + 8 * 2 + 2 * (i - 1)) 2 ->
     exists off,
       getOffset sampleLeaf i = Ok off /\
       off = le_value (bytes_at (data sampleLeaf) (4 + 8 * 2 + 2 * (i - 1)) 2) /\
       recordPosition_spec sampleLeaf i = Ok (4 + 8 * 2 + 2 * 2 + off) /\
       kvPos sampleLeaf i = Ok (u16 (4 + 8 * 2 + 2 * 2 + off)) /\
       (4 + 8 * 2 + 2 * 2 + off < 2 ^ 16 ->
        kvPos sampleLeaf i = recordPosition_spec sampleLeaf i)).
Proof.
  apply (kvPos_index_zero_panics sampleLeaf 2).
  vm_compute. reflexivity.
Defined.

Lemma offset_array_layout_witness :
  offsetPos sampleLeaf 2 = Ok 22 /\
  getOffset sampleLeaf 2 = Ok (le_value (bytes_at (data sampleLeaf) 22 2)) /\
  setOffset sampleLeaf 2 14
  = Ok (mkBNode (write_back (data sampleLeaf) 22
                            [byte_of_Z 14; byte_of_Z (14 / 256)])) /\
  (forall j w, j < 1 \/ 2 < j ->
     is_Panic (getOffset sampleLeaf j) /\ is_Panic (setOffset sampleLeaf j w)).
Proof.
  apply (offset_array_layout sampleLeaf 2 2 14).
  - vm_compute. reflexivity.
  - lia.
  - unfold field_in. split; [lia|]. split; [lia|]. apply Z.leb_le. vm_compute. reflexivity.
Defined.

(** ** Keys, values and the node size *)

Lemma bind_read16 {B : Type} (d : list byte) (pos : Z) (k : Z -> result B) :
  field_in d pos 2 ->
  (s ← slice d pos (add16 pos 2); v ← Uint16 s; k v)
  = k (le_value (bytes_at d pos 2)).
Proof.
  intros (H0 & H1 & H2).
  rewrite add16_small by lia. rewrite slice_ok by lia.
  replace (Z.to_nat (pos + 2 - pos)) with 2%nat by lia.
  cbn [mbind result_bind].
  rewrite Uint16_exact by (apply length_bytes_at; lia).
  reflexivity.
Qed.

(** For an index that [kvPos] accepts, [getKey] and [getVal] read the
    record at [kvPos]: two length fields, then the key, then the value. *)
Lemma getKey_getVal_record (node : BNode) (nk i pos klen vlen : Z) :
  numKeys node = Ok nk -> i <= nk -> kvPos node i = Ok pos ->
  0 <= pos ->
  le_value (bytes_at (data node) pos 2) = klen ->
  le_value (bytes_at (data node) (pos + 2) 2) = vlen ->
  pos + 4 + klen + vlen < 2 ^ 16 ->
  pos + 4 + klen + vlen <= Z.of_nat (length (data node)) ->
  getKey node i = Ok (bytes_at (data node) (pos + 4) (Z.to_nat klen)) /\
  getVal node i = Ok (bytes_at (data node) (pos + 4 + klen) (Z.to_nat vlen)).
Proof.
  intros Hnk Hi Hpos H0 Hk Hv Hsmall Hlen.
  pose proof (le_value_range (bytes_at (data node) pos 2)) as Rk.
  pose proof (le_value_range (bytes_at (data node) (pos + 2) 2)) as Rv.
  rewrite Hk in Rk. rewrite Hv in Rv.
  assert (Hf : field_in (data node) pos 2) by (unfold field_in; lia).
  split.
  - unfold getKey. rewrite Hnk. cbn [mbind result_bind].
    rewrite (proj2 (Z.leb_le i nk) Hi). cbn [assert mbind result_bind].
    rewrite Hpos. cbn [mbind result_bind].
    rewrite bind_read16 by exact Hf. rewrite Hk.
    rewrite (add16_small pos 4) by lia. rewrite add16_small by lia.
    rewrite slice_ok by lia. do 2 f_equal. lia.
  - unfold getVal. rewrite Hnk. cbn [mbind result_bind].
    rewrite (proj2 (Z.leb_le i nk) Hi). cbn [assert mbind result_bind].
    rewrite Hpos. cbn [mbind result_bind].
    rewrite bind_read16 by exact Hf. rewrite Hk.
    rewrite (add16_small pos 2) by lia. rewrite (add16_small pos 4) by lia.
    rewrite slice_ok by lia.
    replace (Z.to_nat (pos + 4 - (pos + 2))) with 2%nat by lia.
    cbn [mbind result_bind].
    rewrite Uint16_exact by (apply length_bytes_at; lia).
    cbn [mbind result_bind]. rewrite Hv.
    rewrite (add16_small (pos + 4)) by lia. rewrite add16_small by lia.
    rewrite slice_ok by lia. do 2 f_equal. lia.
Qed.

Lemma getKey_zero (node : BNode) (nk : Z) :
  numKeys node = Ok nk ->
  getKey node 0 = Panic (AssertionFailed offsetPos_msg).
Proof.
  intros Hnk. pose proof (numKeys_range node nk Hnk) as Hr.
  unfold getKey. rewrite Hnk. cbn [mbind result_bind].
  rewrite (proj2 (Z.leb_le 0 nk)) by lia. cbn [assert mbind result_bind].
  rewrite (kvPos_zero node nk Hnk). reflexivity.
Qed.

Lemma getVal_zero (node : BNode) (nk : Z) :
  numKeys node = Ok nk ->
  getVal node 0 = Panic (AssertionFailed offsetPos_msg).
Proof.
  intros Hnk. pose proof (numKeys_range node nk Hnk) as Hr.
  unfold getVal. rewrite Hnk. cbn [mbind result_bind].
  rewrite (proj2 (Z.leb_le 0 nk)) by lia. cbn [assert mbind result_bind].
  rewrite (kvPos_zero node nk Hnk). reflexivity.
Qed.

Lemma getKey_beyond (node : BNode) (nk idx : Z) :
  numKeys node = Ok nk -> nk < idx ->
  getKey node idx = Panic (AssertionFailed getKey_msg).
Proof.
  intros Hnk Hidx. unfold getKey. rewrite Hnk. cbn [mbind result_bind].
  destruct (Z.leb_spec idx nk); [lia|reflexivity].
Qed.

Lemma getVal_beyond (node : BNode) (nk idx : Z) :
  numKeys node = Ok nk -> nk < idx ->
  getVal node idx = Panic (AssertionFailed getVal_msg).
Proof.
  intros Hnk Hidx. unfold getVal. rewrite Hnk. cbn [mbind result_bind].
  destruct (Z.leb_spec idx nk); [lia|reflexivity].
Qed.

Lemma numBytes_eq_kvPos (node : BNode) (nk : Z) :
  numKeys node = Ok nk -> numBytes node = kvPos node nk.
Proof. intros Hnk. unfold numBytes. rewrite Hnk. reflexivity. Qed.

Lemma numBytes_no_keys (node : BNode) :
  numKeys node = Ok 0 ->
  numBytes node = Panic (AssertionFailed offsetPos_msg).
Proof.
  intros Hnk. rewrite (numBytes_eq_kvPos node 0 Hnk).
  apply (kvPos_zero node 0 Hnk).
Qed.

(** With at least one key and the last offset slot inside the buffer,
    [numBytes] is defined and is [kvPos] of the key count. *)
Lemma numBytes_some_keys (node : BNode) (nk : Z) :
  numKeys node = Ok nk -> 1 <= nk ->
  field_in (data node) (4 + 8 * nk + 2 * (nk - 1)) 2 ->
  exists sz, numBytes node = Ok sz /\ kvPos node nk = Ok sz.
Proof.
  intros Hnk H1 Hin.
  destruct (getOffset_in_range node nk nk Hnk ltac:(lia) Hin) as [_ Hget].
  pose proof (kvPos_in_range node nk nk _ Hnk ltac:(lia) Hget) as Hkv.
  eexists. split; [|exact Hkv].
  rewrite (numBytes_eq_kvPos node nk Hnk). exact Hkv.
Qed.

(** C6. On a page holding a leaf with no key, [numBytes] is not defined:
    it calls [kvPos] with index 0, which passes [kvPos]'s own assertion
    and then fails the assertion of [offsetPos], whereas the size of such
    a node is the header alone. *)
Theorem numBytes_emptyLeaf_panics :
  length (data emptyLeaf) = 4096%nat /\
  bType emptyLeaf = Ok BNode_Leaf /\
  numKeys emptyLeaf = Ok 0 /\
  kvPos emptyLeaf 0 = Panic (AssertionFailed offsetPos_msg) /\
  numBytes emptyLeaf = Panic (AssertionFailed offsetPos_msg).
Proof.
  assert (Hnk : numKeys emptyLeaf = Ok 0) by (vm_compute; reflexivity).
  split; [vm_compute; reflexivity|].
  split; [vm_compute; reflexivity|].
  split; [exact Hnk|].
  split; [apply (kvPos_zero emptyLeaf 0 Hnk)|apply (numBytes_no_keys emptyLeaf Hnk)].
Qed.

(** C8. On [sampleLeaf] the first record, klen 2, vlen 1, "k0", "a", lies
    at position 24, yet [getKey] and [getVal] at index 0 panic instead of
    returning its key and value; the second record is read as described. *)
Theorem getKey_getVal_first_record_panic :
  numKeys sampleLeaf = Ok 2 /\
  bytes_at (data sampleLeaf) 24 7
  = record_bytes (list_byte_of_string "k0") (list_byte_of_string "a") /\
  getKey sampleLeaf 0 = Panic (AssertionFailed offsetPos_msg) /\
  getVal sampleLeaf 0 = Panic (AssertionFailed offsetPos_msg) /\
  getKey sampleLeaf 1 = Ok (list_byte_of_string "k1") /\
  getVal sampleLeaf 1 = Ok (list_byte_of_string "b").
Proof.
  assert (Hnk : numKeys sampleLeaf = Ok 2) by (vm_compute; reflexivity).
  split; [exact Hnk|].
  split; [vm_compute; reflexivity|].
  split; [apply (getKey_zero sampleLeaf 2 Hnk)|].
  split; [apply (getVal_zero sampleLeaf 2 Hnk)|].
  split; vm_compute; reflexivity.
Qed.

(** The accessors that assert on their index do panic beyond the key
    count. *)
Lemma asserting_accessors_beyond (node : BNode) (nk idx v : Z) :
  numKeys node = Ok nk -> nk < idx ->
  getOffset node idx = Panic (AssertionFailed offsetPos_msg) /\
  setOffset node idx v = Panic (AssertionFailed offsetPos_msg) /\
  kvPos node idx = Panic (AssertionFailed kvPos_msg) /\
  getKey node idx = Panic (AssertionFailed getKey_msg) /\
  getVal node idx = Panic (AssertionFailed getVal_msg).
Proof.
  intros Hnk Hidx.
  split; [apply (getOffset_out_of_range node nk idx Hnk); lia|].
  split; [apply (setOffset_out_of_range node nk idx v Hnk); lia|].
  split; [apply (kvPos_beyond node nk idx Hnk Hidx)|].
  split; [apply (getKey_beyond node nk idx Hnk Hidx)
         |apply (getVal_beyond node nk idx Hnk Hidx)].
Qed.

(** [getPtr] and [setPtr] have no assertion: any index whose 8 bytes lie
    inside the buffer is read or written. *)
Lemma getPtr_setPtr_unchecked (node : BNode) (i ptr : Z) :
  0 <= i -> field_in (data node) (4 + 8 * i) 8 ->
  getPtr node i = Ok (le_value (bytes_at (data node) (4 + 8 * i) 8)) /\
  setPtr node i ptr
  = Ok (mkBNode (write_back (data node) (4 + 8 * i) (le_bytes 8 ptr))).
Proof.
  intros Hi Hin. pose proof Hin as (H0 & H1 & H2).
  assert (Hpos : add16 Header (mul16 i 8) = 4 + 8 * i).
  { unfold Header. rewrite mul16_small by lia. rewrite add16_small by lia. lia. }
  split.
  - unfold getPtr. cbv zeta. rewrite Hpos. apply read_field64. exact Hin.
  - unfold setPtr. cbv zeta. rewrite Hpos. apply write_field64. exact Hin.
Qed.

(** C2. On [sampleLeaf], which has two keys, index 3 is beyond the key
    count; [getPtr] returns the eight bytes at position 28, which belong
    to the records, and [setPtr] overwrites them, after which the second
    key reads as empty.  Neither call panics. *)
Theorem getPtr_setPtr_beyond_keyCount :
  numKeys sampleLeaf = Ok 2 /\
  getPtr sampleLeaf 3 = Ok (le_value (bytes_at (data sampleLeaf) 28 8)) /\
  bytes_at (data sampleLeaf) 28 8
  = list_byte_of_string "k0a" ++ le_bytes 2 2 ++ le_bytes 2 1
    ++ list_byte_of_string "k" /\
  setPtr sampleLeaf 3 0
  = Ok (mkBNode (write_back (data sampleLeaf) 28 (le_bytes 8 0))) /\
  getKey sampleLeaf 1 = Ok (list_byte_of_string "k1") /\
  getKey (mkBNode (write_back (data sampleLeaf) 28 (le_bytes 8 0))) 1 = Ok [].
Proof.
  assert (Hin : field_in (data sampleLeaf) (4 + 8 * 3) 8).
  { unfold field_in. split; [lia|]. split; [lia|]. apply Z.leb_le. vm_compute. reflexivity. }
  destruct (getPtr_setPtr_unchecked sampleLeaf 3 0 ltac:(lia) Hin) as [Hg Hs].
  split; [vm_compute; reflexivity|].
  split; [exact Hg|].
  split; [vm_compute; reflexivity|].
  split; [exact Hs|].
  split; vm_compute; reflexivity.
Qed.

(** ** Sizes against the page size *)

Lemma numBytes_of_last_offset (node : BNode) (nk off : Z) :
  numKeys node = Ok nk -> getOffset node nk = Ok off ->
  4 + 8 * nk + 2 * nk + off < 2 ^ 16 ->
  numBytes node = Ok (4 + 8 * nk + 2 * nk + off).
Proof.
  intros Hnk Hoff Hsmall.
  pose proof (numKeys_range node nk Hnk) as Hr.
  assert (0 <= off).
  { unfold getOffset in Hoff.
    destruct (offsetPos node nk) as [pos|]; [|discriminate].
    cbn [mbind result_bind] in Hoff.
    destruct (slice (data node) pos (add16 pos 2)) as [[|b0 [|b1 r]]|];
      try discriminate.
    cbn [mbind result_bind] in Hoff. rewrite Uint16_le in Hoff.
    injection Hoff as <-.
    pose proof (byte_to_Z_range b0). pose proof (byte_to_Z_range b1). lia. }
  rewrite (numBytes_eq_kvPos node nk Hnk).
  rewrite (kvPos_in_range node nk nk off Hnk ltac:(lia) Hoff).
  unfold Header. rewrite u16_small by lia. reflexivity.
Qed.

(** C10. A node with one key whose record has a key of at most 1000 and a
    value of at most 3000 bytes has [numBytes] = 4 + 8 + 2 + (4 + klen +
    vlen), at most 4018, and 4018 is at most [BTreePageSize]. *)
Theorem one_max_record_fits (node : BNode) (key val : list byte) :
  numKeys node = Ok 1 ->
  holds_record node 1 0 0 (key, val) ->
  Z.of_nat (length key) <= BTreeMaxKeySize ->
  Z.of_nat (length val) <= BTreeMaxValSize ->
  exists sz,
    numBytes node = Ok sz /\
    sz = Header + 8 + 2 + (4 + Z.of_nat (length key) + Z.of_nat (length val)) /\
    sz <= Header + 8 + 2 + 4 + BTreeMaxKeySize + BTreeMaxValSize /\
    Header + 8 + 2 + 4 + BTreeMaxKeySize + BTreeMaxValSize = 4018 /\
    4018 <= BTreePageSize /\
    sz <= BTreePageSize.
Proof.
  intros Hnk [_ Hoff] Hk Hv.
  unfold record_size in Hoff. cbn [fst snd] in Hoff.
  change (0 + 1) with 1 in Hoff.
  unfold BTreeMaxKeySize, BTreeMaxValSize, BTreePageSize, Header in *.
  eexists. split.
  - apply (numBytes_of_last_offset node 1 _ Hnk Hoff). lia.
  - lia.
Qed.

Lemma one_max_record_fits_witness :
  exists sz,
    numBytes oneMaxRecord = Ok sz /\
    sz = Header + 8 + 2 + (4 + Z.of_nat (length maxKey) + Z.of_nat (length maxVal)) /\
    sz <= Header + 8 + 2 + 4 + BTreeMaxKeySize + BTreeMaxValSize /\
    Header + 8 + 2 + 4 + BTreeMaxKeySize + BTreeMaxValSize = 4018 /\
    4018 <= BTreePageSize /\
    sz <= BTreePageSize.
Proof.
  apply (one_max_record_fits oneMaxRecord maxKey maxVal).
  - vm_compute. reflexivity.
  - split; vm_compute; reflexivity.
  - apply Z.leb_le. vm_compute. reflexivity.
  - apply Z.leb_le. vm_compute. reflexivity.
Defined.

(** C3 (as stated) fails: the node holding two records of maximum size
    has [numBytes] = 8032, which is more than [BTreePageSize]. *)
Lemma two_max_records_exceed_page :
  Z.of_nat (length maxKey) = BTreeMaxKeySize /\
  Z.of_nat (length maxVal) = BTreeMaxValSize /\
  numKeys twoMaxRecords = Ok 2 /\
  holds_record twoMaxRecords 2 0 0 (maxKey, maxVal) /\
  holds_record twoMaxRecords 2 1 4004 (maxKey, maxVal) /\
  numBytes twoMaxRecords = Ok 8032 /\
  ~ (8032 <= BTreePageSize).
Proof.
  split; [vm_compute; reflexivity|].
  split; [vm_compute; reflexivity|].
  split; [vm_compute; reflexivity|].
  split; [split; vm_compute; reflexivity|].
  split; [split; vm_compute; reflexivity|].
  split; [vm_compute; reflexivity|].
  unfold BTreePageSize. lia.
Qed.

(** C3 (amended). A node with two keys whose records respect the key and
    value limits has [numBytes] = 4 + 2 * 8 + 2 * 2 + (4 + k1 + v1) +
    (4 + k2 + v2); that is at most [BTreePageSize] exactly when the two
    keys and values total at most 4064 bytes, and for two records of
    maximum size it is 8032. *)
Theorem two_records_size (node : BNode) (kv1 kv2 : list byte * list byte) :
  numKeys node = Ok 2 ->
  holds_record node 2 0 0 kv1 ->
  holds_record node 2 1 (record_size kv1) kv2 ->
  Z.of_nat (length kv1.1) <= BTreeMaxKeySize ->
  Z.of_nat (length kv1.2) <= BTreeMaxValSize ->
  Z.of_nat (length kv2.1) <= BTreeMaxKeySize ->
  Z.of_nat (length kv2.2) <= BTreeMaxValSize ->
  exists sz,
    numBytes node = Ok sz /\
    sz = Header + 2 * 8 + 2 * 2 + record_size kv1 + record_size kv2 /\
    (sz <= BTreePageSize <->
     Z.of_nat (length kv1.1) + Z.of_nat (length kv1.2)
     + Z.of_nat (length kv2.1) + Z.of_nat (length kv2.2) <= 4064) /\
    sz <= 8032 /\
    Header + 2 * 8 + 2 * 2
    + 2 * (4 + BTreeMaxKeySize + BTreeMaxValSize) = 8032.
Proof.
  intros Hnk _ [_ Hoff] Hk1 Hv1 Hk2 Hv2.
  change (1 + 1) with 2 in Hoff.
  unfold record_size in *.
  unfold BTreeMaxKeySize, BTreeMaxValSize, BTreePageSize, Header in *.
  eexists. split.
  - apply (numBytes_of_last_offset node 2 _ Hnk Hoff). lia.
  - lia.
Qed.

Lemma two_records_size_witness :
  exists sz,
    numBytes twoMaxRecords = Ok sz /\
    sz = Header + 2 * 8 + 2 * 2
         + record_size (maxKey, maxVal) + record_size (maxKey, maxVal) /\
    (sz <= BTreePageSize <->
     Z.of_nat (length (maxKey, maxVal).1) + Z.of_nat (length (maxKey, maxVal).2)
     + Z.of_nat (length (maxKey, maxVal).1)
     + Z.of_nat (length (maxKey, maxVal).2) <= 4064) /\
    sz <= 8032 /\
    Header + 2 * 8 + 2 * 2
    + 2 * (4 + BTreeMaxKeySize + BTreeMaxValSize) = 8032.
Proof.
  apply (two_records_size twoMaxRecords (maxKey, maxVal) (maxKey, maxVal)).
  - vm_compute. reflexivity.
  - split; vm_compute; reflexivity.
  - split; vm_compute; reflexivity.
  - apply Z.leb_le. vm_compute. reflexivity.
  - apply Z.leb_le. vm_compute. reflexivity.
  - apply Z.leb_le. vm_compute. reflexivity.
  - apply Z.leb_le. vm_compute. reflexivity.
Defined.

(** ** Writing and reading back *)

Lemma setPtr_getPtr (node : BNode) (i ptr : Z) :
  0 <= i -> field_in (data node) (4 + 8 * i) 8 ->
  exists node',
    setPtr node i ptr = Ok node' /\
    length (data node') = length (data node) /\
    getPtr node' i = Ok (u64 ptr).
Proof.
  intros Hi Hin. pose proof Hin as (H0 & H1 & H2).
  destruct (getPtr_setPtr_unchecked node i ptr Hi Hin) as [_ Hs].
  eexists. split; [exact Hs|].
  assert (Hlen : length (write_back (data node) (4 + 8 * i) (le_bytes 8 ptr))
                 = length (data node)).
  { apply length_write_back; [lia|]. rewrite length_le_bytes. lia. }
  split; [exact Hlen|].
  destruct (getPtr_setPtr_unchecked
              (mkBNode (write_back (data node) (4 + 8 * i) (le_bytes 8 ptr)))
              i 0 Hi) as [Hg _].
  { unfold field_in. cbn [data]. rewrite Hlen. lia. }
  rewrite Hg. cbn [data].
  replace 8%nat with (length (le_bytes 8 ptr)) at 2 by apply length_le_bytes.
  rewrite bytes_at_write_back_same by (rewrite ?length_le_bytes; lia).
  rewrite le_value_bytes. reflexivity.
Qed.

Lemma setOffset_getOffset (node : BNode) (nk i v : Z) :
  numKeys node = Ok nk -> 1 <= i <= nk ->
  field_in (data node) (4 + 8 * nk + 2 * (i - 1)) 2 ->
  exists node',
    setOffset node i v = Ok node' /\
    length (data node') = length (data node) /\
    numKeys node' = Ok nk /\
    getOffset node' i = Ok (u16 v).
Proof.
  intros Hnk Hi Hin. pose proof Hin as (H0 & H1 & H2).
  pose proof (numKeys_range node nk Hnk) as Hr.
  pose proof (numKeys_length node nk Hnk) as Hl.
  set (pos := 4 + 8 * nk + 2 * (i - 1)) in *.
  eexists. split; [apply (setOffset_in_range node nk i v Hnk Hi Hin)|].
  set (node' := mkBNode (write_back (data node) pos (le_bytes 2 v))).
  assert (Hlen : length (data node') = length (data node)).
  { apply length_write_back; [lia|]. rewrite length_le_bytes. lia. }
  assert (Hnk' : numKeys node' = Ok nk).
  { rewrite numKeys_eq by (rewrite Hlen; lia).
    rewrite numKeys_eq in Hnk by lia. rewrite <- Hnk. f_equal. f_equal.
    apply bytes_at_write_back_other; rewrite ?length_le_bytes; lia. }
  split; [exact Hlen|]. split; [exact Hnk'|].
  destruct (getOffset_in_range node' nk i Hnk' Hi) as [_ Hg].
  { unfold field_in. rewrite Hlen. fold pos. lia. }
  change (getOffset node' i = Ok (u16 v)).
  rewrite Hg. fold pos. cbn [node' data].
  replace 2%nat with (length (le_bytes 2 v)) at 2 by apply length_le_bytes.
  rewrite bytes_at_write_back_same by (rewrite ?length_le_bytes; lia).
  rewrite le_value_bytes. reflexivity.
Qed.

Example encodeNode_two_entries :
  encodeNode BNode_Leaf
    [(0, list_byte_of_string "k0", list_byte_of_string "a");
     (0, list_byte_of_string "k1", list_byte_of_string "b")] = Ok sampleLeaf.
Proof. vm_compute. reflexivity. Qed.

(** C4. Encoding the leaf with the single pair ("a","1") as described,
    header, pointer, entry end and record written on a zeroed page, gives
    [leafA1]; [bType], [numKeys], [getPtr] and [getOffset] return what was
    written and the record bytes are in place at position 14, but
    [getKey] and [getVal] at index 0 panic instead of returning "a" and
    "1". *)
Theorem encode_decode_first_record_panics :
  encodeNode BNode_Leaf
    [(0, list_byte_of_string "a", list_byte_of_string "1")] = Ok leafA1 /\
  bType leafA1 = Ok BNode_Leaf /\
  numKeys leafA1 = Ok 1 /\
  getPtr leafA1 0 = Ok 0 /\
  getOffset leafA1 1 = Ok 6 /\
  bytes_at (data leafA1) 14 6
  = record_bytes (list_byte_of_string "a") (list_byte_of_string "1") /\
  getKey leafA1 0 = Panic (AssertionFailed offsetPos_msg) /\
  getVal leafA1 0 = Panic (AssertionFailed offsetPos_msg).
Proof.
  assert (Hnk : numKeys leafA1 = Ok 1) by (vm_compute; reflexivity).
  split; [vm_compute; reflexivity|].
  split; [vm_compute; reflexivity|].
  split; [exact Hnk|].
  split; [vm_compute; reflexivity|].
  split; [vm_compute; reflexivity|].
  split; [vm_compute; reflexivity|].
  split; [apply (getKey_zero leafA1 1 Hnk)|apply (getVal_zero leafA1 1 Hnk)].
Qed.

(** ** Insert *)

(** C5. [Insert] with a key longer than 1000 bytes or a value longer than
    3000 bytes reports the oversize error and returns the tree as it was:
    same root, same live pages, no call to the page store. *)
Theorem Insert_oversize_unchanged
    (insertPath : BTree -> list byte -> list byte -> BTree)
    (t : BTree) (key val : list byte) :
  BTreeMaxKeySize < Z.of_nat (length key)
  \/ BTreeMaxValSize < Z.of_nat (length val) ->
  Insert insertPath t key val = (t, Some ErrOversize) /\
  root (Insert insertPath t key val).1 = root t /\
  pages (Insert insertPath t key val).1 = pages t /\
  calls (Insert insertPath t key val).1 = calls t.
Proof.
  intros H.
  assert (E : Insert insertPath t key val = (t, Some ErrOversize)).
  { unfold Insert.
    destruct (Z.ltb_spec BTreeMaxKeySize (Z.of_nat (length key))) as [Hk|Hk];
      [reflexivity|].
    destruct (Z.ltb_spec BTreeMaxValSize (Z.of_nat (length val))) as [Hv|Hv];
      [reflexivity|].
    lia. }
  rewrite E. repeat split.
Qed.

Lemma Insert_oversize_unchanged_witness :
  Insert replaceRoot oneLeafTree oversizeKey [] = (oneLeafTree, Some ErrOversize) /\
  root (Insert replaceRoot oneLeafTree oversizeKey []).1 = root oneLeafTree /\
  pages (Insert replaceRoot oneLeafTree oversizeKey []).1 = pages oneLeafTree /\
  calls (Insert replaceRoot oneLeafTree oversizeKey []).1 = calls oneLeafTree.
Proof.
  apply (Insert_oversize_unchanged replaceRoot oneLeafTree oversizeKey []).
  left. vm_compute. reflexivity.
Defined.

(** ** Decoding the documented layout *)

Section Windows.
Local Open Scope nat_scope.
Context {A : Type}.
Implicit Types (l a b c : list A) (k m i w : nat).

Lemma window_app_r a b k m :
  take m (drop (length a + k) (a ++ b)) = take m (drop k b).
Proof. rewrite drop_app_add. reflexivity. Qed.

Lemma window_app_l a b k m :
  k + m <= length a -> take m (drop k (a ++ b)) = take m (drop k a).
Proof.
  intros H. rewrite drop_app_le by lia.
  apply take_app_le. rewrite length_drop. lia.
Qed.

Lemma window_whole a b : take (length a) (drop 0 (a ++ b)) = a.
Proof. rewrite drop_0. apply take_app_length. Qed.

Lemma window_split l k a b :
  take (length a + length b) (drop k l) = a ++ b ->
  take (length a) (drop k l) = a /\
  take (length b) (drop (k + length a) l) = b.
Proof.
  intros H. split.
  - apply (f_equal (take (length a))) in H.
    rewrite take_take, take_app_length in H.
    rewrite Nat.min_l in H by lia. exact H.
  - apply (f_equal (drop (length a))) in H.
    rewrite drop_app_length in H.
    rewrite <- drop_drop. rewrite take_drop_commute. exact H.
Qed.

(** A list of chunks of equal width: chunk [i] starts at [w * i]. *)
Lemma window_chunks {B : Type} (f : B -> list A) (xs : list B) w i x :
  (forall y, length (f y) = w) -> xs !! i = Some x ->
  take w (drop (w * i) (concat (map f xs))) = f x.
Proof.
  intros Hw. revert i. induction xs as [|y ys IH]; intros i Hi; [discriminate|].
  cbn [map concat]. destruct i as [|i].
  - injection Hi as ->. rewrite Nat.mul_0_r, drop_0.
    rewrite <- (Hw x) at 1. apply take_app_length.
  - cbn [lookup list_lookup] in Hi.
    replace (w * S i) with (length (f y) + w * i) by (rewrite Hw; lia).
    rewrite window_app_r. apply IH. exact Hi.
Qed.

Lemma length_chunks {B : Type} (f : B -> list A) (xs : list B) w :
  (forall y, length (f y) = w) ->
  length (concat (map f xs)) = w * length xs.
Proof.
  intros Hw. induction xs as [|y ys IH]; cbn [map concat length]; [lia|].
  rewrite length_app, Hw, IH. lia.
Qed.

End Windows.

Lemma length_record_bytes (key val : list byte) :
  Z.of_nat (length (record_bytes key val)) = record_size (key, val).
Proof.
  unfold record_bytes, record_size. cbn [fst snd].
  rewrite !length_app, !length_le_bytes. lia.
Qed.

Lemma record_size_pos (kv : list byte * list byte) : 4 <= record_size kv.
Proof. unfold record_size. lia. Qed.

Lemma length_entry_ends (s : Z) (recs : list (list byte * list byte)) :
  length (entry_ends s recs) = length recs.
Proof.
  revert s. induction recs as [|kv t IH]; intros s; cbn [entry_ends length];
    [reflexivity|]. rewrite IH. reflexivity.
Qed.

(** The starts of the records are [s] followed by the ends of the
    records; record [i] occupies its window of the record region and its
    end is the next entry of [entry_ends]. *)
Lemma record_window (recs : list (list byte * list byte)) :
  forall (s : Z) (i : nat) (kv : list byte * list byte),
    recs !! i = Some kv ->
    exists st,
      (s :: entry_ends s recs) !! i = Some st /\
      entry_ends s recs !! i = Some (st + record_size kv) /\
      s <= st /\
      st + record_size kv
      <= s + Z.of_nat (length (concat (map (fun kv => record_bytes kv.1 kv.2) recs))) /\
      take (Z.to_nat (record_size kv))
           (drop (Z.to_nat (st - s))
                 (concat (map (fun kv => record_bytes kv.1 kv.2) recs)))
      = record_bytes kv.1 kv.2.
Proof.
  induction recs as [|kv0 t IH]; intros s i kv Hi; [discriminate|].
  pose proof (length_record_bytes kv0.1 kv0.2) as Hl0.
  assert (Hkv0 : record_size (kv0.1, kv0.2) = record_size kv0) by (destruct kv0; reflexivity).
  rewrite Hkv0 in Hl0.
  pose proof (record_size_pos kv0) as Hp0.
  cbn [map concat entry_ends]. rewrite length_app.
  destruct i as [|i].
  - injection Hi as <-. exists s. split; [reflexivity|]. split; [reflexivity|].
    split; [lia|]. split; [lia|].
    replace (Z.to_nat (s - s)) with 0%nat by lia.
    replace (Z.to_nat (record_size kv0)) with (length (record_bytes kv0.1 kv0.2)) by lia.
    apply window_whole.
  - cbn [lookup list_lookup] in Hi.
    destruct (IH (s + record_size kv0) i kv Hi) as (st & H1 & H2 & H3 & H4 & H5).
    exists st. split; [exact H1|]. split; [exact H2|].
    split; [lia|]. split; [lia|].
    replace (Z.to_nat (st - s))
      with (length (record_bytes kv0.1 kv0.2) + Z.to_nat (st - (s + record_size kv0)))%nat
      by lia.
    rewrite window_app_r. exact H5.
Qed.

Lemma le_value_le_bytes_small (n : nat) (v : Z) :
  0 <= v < 2 ^ (8 * Z.of_nat n) -> le_value (le_bytes n v) = v.
Proof. intros H. rewrite le_value_bytes. apply Z.mod_small. exact H. Qed.

Lemma bytes_at_skip (a rest : list byte) (pos : Z) (m : nat) :
  Z.of_nat (length a) <= pos ->
  bytes_at (a ++ rest) pos m = bytes_at rest (pos - Z.of_nat (length a)) m.
Proof.
  intros H. unfold bytes_at.
  replace (Z.to_nat pos)
    with (length a + Z.to_nat (pos - Z.of_nat (length a)))%nat by lia.
  apply window_app_r.
Qed.

Lemma bytes_at_in (a rest : list byte) (pos : Z) (m : nat) :
  0 <= pos -> pos + Z.of_nat m <= Z.of_nat (length a) ->
  bytes_at (a ++ rest) pos m = bytes_at a pos m.
Proof. intros H0 H. unfold bytes_at. apply window_app_l. lia. Qed.

Lemma bytes_at_split (d : list byte) (pos : Z) (a b : list byte) :
  0 <= pos ->
  bytes_at d pos (length a + length b) = a ++ b ->
  bytes_at d pos (length a) = a /\
  bytes_at d (pos + Z.of_nat (length a)) (length b) = b.
Proof.
  intros H0 H. unfold bytes_at in *.
  destruct (window_split d (Z.to_nat pos) a b H) as [Ha Hb].
  split; [exact Ha|].
  replace (Z.to_nat (pos + Z.of_nat (length a)))
    with (Z.to_nat pos + length a)%nat by lia.
  exact Hb.
Qed.

(** The four fields of a record that lies at [pos]. *)
Lemma record_fields (d : list byte) (pos : Z) (key val : list byte) :
  0 <= pos ->
  bytes_at d pos (Z.to_nat (record_size (key, val))) = record_bytes key val ->
  bytes_at d pos 2 = le_bytes 2 (Z.of_nat (length key)) /\
  bytes_at d (pos + 2) 2 = le_bytes 2 (Z.of_nat (length val)) /\
  bytes_at d (pos + 4) (length key) = key /\
  bytes_at d (pos + 4 + Z.of_nat (length key)) (length val) = val.
Proof.
  intros H0 H. unfold record_size, record_bytes in H. cbn [fst snd] in H.
  set (lk := le_bytes 2 (Z.of_nat (length key))) in *.
  set (lv := le_bytes 2 (Z.of_nat (length val))) in *.
  assert (Elk : length lk = 2%nat) by apply length_le_bytes.
  assert (Elv : length lv = 2%nat) by apply length_le_bytes.
  replace (Z.to_nat (4 + Z.of_nat (length key) + Z.of_nat (length val)))
    with (length lk + length (lv ++ key ++ val))%nat in H
    by (rewrite !length_app, Elk, Elv; lia).
  destruct (bytes_at_split d pos lk _ H0 H) as [H1 H2].
  rewrite Elk in H1. rewrite Elk in H2. change (Z.of_nat 2) with 2 in H2.
  split; [exact H1|].
  rewrite (length_app lv) in H2.
  destruct (bytes_at_split d (pos + 2) lv _ ltac:(lia) H2) as [H3 H4].
  rewrite Elv in H3. rewrite Elv in H4. change (Z.of_nat 2) with 2 in H4.
  split; [exact H3|].
  rewrite length_app in H4.
  destruct (bytes_at_split d (pos + 2 + 2) key _ ltac:(lia) H4) as [H5 H6].
  replace (pos + 2 + 2) with (pos + 4) in * by lia.
  split; [exact H5|exact H6].
Qed.

Lemma bytes_at_whole (a rest : list byte) :
  bytes_at (a ++ rest) 0 (length a) = a.
Proof. unfold bytes_at. change (Z.to_nat 0) with 0%nat. apply window_whole. Qed.

Lemma length_node_image (kind : Z) (ptrs : list Z)
    (recs : list (list byte * list byte)) :
  length ptrs = length recs ->
  Z.of_nat (length (node_image kind ptrs recs))
  = 4 + 8 * Z.of_nat (length recs) + 2 * Z.of_nat (length recs)
    + Z.of_nat (length (concat (map (fun kv => record_bytes kv.1 kv.2) recs))).
Proof.
  intros Hp. unfold node_image. rewrite !length_app, !length_le_bytes.
  rewrite (length_chunks (le_bytes 8) ptrs 8) by (intros; apply length_le_bytes).
  rewrite (length_chunks (le_bytes 2) (entry_ends 0 recs) 2)
    by (intros; apply length_le_bytes).
  rewrite length_entry_ends, Hp. lia.
Qed.

(** Where the fields of the layout lie in the buffer. *)
Lemma image_fields (kind : Z) (ptrs : list Z)
    (recs : list (list byte * list byte)) (pad : list byte) :
  length ptrs = length recs ->
  let d := data (image_node kind ptrs recs pad) in
  let N := Z.of_nat (length recs) in
  bytes_at d 0 2 = le_bytes 2 kind /\
  bytes_at d 2 2 = le_bytes 2 N /\
  (forall i p, ptrs !! i = Some p ->
     bytes_at d (4 + 8 * Z.of_nat i) 8 = le_bytes 8 p) /\
  (forall i e, entry_ends 0 recs !! i = Some e ->
     bytes_at d (4 + 8 * N + 2 * Z.of_nat i) 2 = le_bytes 2 e) /\
  (forall i kv, recs !! i = Some kv ->
     exists st,
       (0 :: entry_ends 0 recs) !! i = Some st /\
       entry_ends 0 recs !! i = Some (st + record_size kv) /\
       0 <= st /\
       st + record_size kv
       <= Z.of_nat (length (concat (map (fun kv => record_bytes kv.1 kv.2) recs))) /\
       bytes_at d (4 + 8 * N + 2 * N + st) (Z.to_nat (record_size kv))
       = record_bytes kv.1 kv.2).
Proof.
  intros Hp d N.
  unfold d, image_node, node_image. cbn [data]. rewrite <- !app_assoc.
  set (P := concat (map (le_bytes 8) ptrs)).
  set (O := concat (map (le_bytes 2) (entry_ends 0 recs))).
  set (R := concat (map (fun kv => record_bytes kv.1 kv.2) recs)) in *.
  assert (EP : Z.of_nat (length P) = 8 * N).
  { unfold P. rewrite (length_chunks (le_bytes 8) ptrs 8)
      by (intros; apply length_le_bytes). rewrite Hp. unfold N. lia. }
  assert (EO : Z.of_nat (length O) = 2 * N).
  { unfold O. rewrite (length_chunks (le_bytes 2) (entry_ends 0 recs) 2)
      by (intros; apply length_le_bytes). rewrite length_entry_ends. unfold N. lia. }
  assert (E2 : forall v, Z.of_nat (length (le_bytes 2 v)) = 2)
    by (intros; rewrite length_le_bytes; reflexivity).
  split; [|split; [|split; [|split]]].
  - replace 2%nat with (length (le_bytes 2 kind)) at 1 by apply length_le_bytes.
    apply bytes_at_whole.
  - rewrite bytes_at_skip by (rewrite E2; lia). rewrite E2.
    replace (2 - 2) with 0 by lia.
    replace 2%nat with (length (le_bytes 2 N)) at 1 by apply length_le_bytes.
    apply bytes_at_whole.
  - intros i p Hi.
    pose proof (lookup_lt_Some _ _ _ Hi) as Hlt.
    rewrite bytes_at_skip by (rewrite E2; lia). rewrite E2.
    rewrite bytes_at_skip by (rewrite E2; lia). rewrite E2.
    rewrite bytes_at_in by lia.
    unfold bytes_at.
    replace (Z.to_nat (4 + 8 * Z.of_nat i - 2 - 2)) with (8 * i)%nat by lia.
    apply (window_chunks (le_bytes 8) ptrs 8 i p);
      [intros; apply length_le_bytes|exact Hi].
  - intros i e Hi.
    pose proof (lookup_lt_Some _ _ _ Hi) as Hlt. rewrite length_entry_ends in Hlt.
    rewrite bytes_at_skip by (rewrite E2; lia). rewrite E2.
    rewrite bytes_at_skip by (rewrite E2; lia). rewrite E2.
    rewrite bytes_at_skip by lia. rewrite EP.
    rewrite bytes_at_in by lia.
    unfold bytes_at.
    replace (Z.to_nat (4 + 8 * N + 2 * Z.of_nat i - 2 - 2 - 8 * N))
      with (2 * i)%nat by lia.
    apply (window_chunks (le_bytes 2) (entry_ends 0 recs) 2 i e);
      [intros; apply length_le_bytes|exact Hi].
  - intros i kv Hi.
    destruct (record_window recs 0 i kv Hi) as (st & H1 & H2 & H3 & H4 & H5).
    fold R in H4, H5.
    exists st. split; [exact H1|]. split; [exact H2|]. split; [exact H3|].
    split; [lia|].
    pose proof (record_size_pos kv) as Hpos.
    rewrite bytes_at_skip by (rewrite E2; lia). rewrite E2.
    rewrite bytes_at_skip by (rewrite E2; lia). rewrite E2.
    rewrite bytes_at_skip by lia. rewrite EP.
    rewrite bytes_at_skip by lia. rewrite EO.
    rewrite bytes_at_in by lia.
    unfold bytes_at.
    replace (Z.to_nat (4 + 8 * N + 2 * N + st - 2 - 2 - 8 * N - 2 * N))
      with (Z.to_nat (st - 0)) by lia.
    exact H5.
Qed.

Lemma last_entry_end (recs : list (list byte * list byte)) :
  forall s, recs <> [] ->
    entry_ends s recs !! (length recs - 1)%nat
    = Some (s + Z.of_nat (length (concat (map (fun kv => record_bytes kv.1 kv.2) recs)))).
Proof.
  induction recs as [|kv t IH]; intros s Hne; [congruence|].
  pose proof (length_record_bytes kv.1 kv.2) as Hl.
  assert (Hkv : record_size (kv.1, kv.2) = record_size kv) by (destruct kv; reflexivity).
  rewrite Hkv in Hl.
  cbn [entry_ends map concat length]. rewrite length_app.
  destruct t as [|kv' t'].
  - change ((S (length (@nil (list byte * list byte))) - 1)%nat) with 0%nat.
    cbn [map concat length lookup list_lookup]. f_equal. lia.
  - replace (S (length (kv' :: t')) - 1)%nat with (S (length (kv' :: t') - 1))
      by (cbn [length]; lia).
    cbn [lookup list_lookup].
    etransitivity; [apply (IH (s + record_size kv)); congruence|].
    f_equal. lia.
Qed.

(** X15. Decoding the documented layout: on a node whose buffer starts
    with the layout of [kind], [ptrs] and [recs], the accessors return the
    kind, the key count, every child pointer, every entry end, and the key
    and value of every record but the first; with at least one record
    [numBytes] is the length of the layout; [getKey] and [getVal] at index
    0 panic. *)
Theorem decode_node_image (kind : Z) (ptrs : list Z)
    (recs : list (list byte * list byte)) (pad : list byte) :
  well_sized kind ptrs recs ->
  let node := image_node kind ptrs recs pad in
  bType node = Ok kind /\
  numKeys node = Ok (Z.of_nat (length recs)) /\
  (forall i p, ptrs !! i = Some p -> getPtr node (Z.of_nat i) = Ok p) /\
  (forall i e, entry_ends 0 recs !! i = Some e ->
     getOffset node (Z.of_nat i + 1) = Ok e) /\
  (forall i kv, recs !! S i = Some kv ->
     getKey node (Z.of_nat (S i)) = Ok kv.1 /\
     getVal node (Z.of_nat (S i)) = Ok kv.2) /\
  (recs <> [] ->
     numBytes node = Ok (Z.of_nat (length (node_image kind ptrs recs)))) /\
  getKey node 0 = Panic (AssertionFailed offsetPos_msg) /\
  getVal node 0 = Panic (AssertionFailed offsetPos_msg).
Proof.
  intros (Hkind & Hp & Hptrs & Hsmall) node.
  pose proof (length_node_image kind ptrs recs Hp) as HL.
  destruct (image_fields kind ptrs recs pad Hp) as (F1 & F2 & F3 & F4 & F5).
  fold node in F1, F2, F3, F4, F5.
  set (N := Z.of_nat (length recs)) in *.
  set (RL := Z.of_nat (length (concat (map (fun kv => record_bytes kv.1 kv.2) recs)))) in *.
  assert (Hd : Z.of_nat (length (data node))
               = 4 + 8 * N + 2 * N + RL + Z.of_nat (length pad)).
  { unfold node, image_node. cbn [data]. rewrite length_app. lia. }
  assert (HN : 0 <= N) by (unfold N; lia).
  assert (HRL : 0 <= RL) by (unfold RL; lia).
  assert (Hnk : numKeys node = Ok N).
  { rewrite numKeys_eq by lia. rewrite F2.
    rewrite le_value_le_bytes_small; [reflexivity|]. change (2 ^ (8 * Z.of_nat 2)) with (2 ^ 16). lia. }
  assert (Hoff : forall i e, entry_ends 0 recs !! i = Some e ->
            0 <= e <= RL /\ getOffset node (Z.of_nat i + 1) = Ok e).
  { intros i e Hi.
    pose proof (lookup_lt_Some _ _ _ Hi) as Hlt. rewrite length_entry_ends in Hlt.
    destruct (lookup_lt_is_Some_2 recs i Hlt) as [kv Hkv].
    destruct (F5 i kv Hkv) as (st & _ & He & Hst & Hle & _).
    rewrite Hi in He. injection He as ->.
    pose proof (record_size_pos kv).
    split; [lia|].
    destruct (getOffset_in_range node N (Z.of_nat i + 1) Hnk) as [_ Hg].
    { unfold N. lia. }
    { unfold field_in. lia. }
    rewrite Hg.
    replace (4 + 8 * N + 2 * (Z.of_nat i + 1 - 1)) with (4 + 8 * N + 2 * Z.of_nat i) by lia.
    rewrite (F4 i _ Hi).
    rewrite le_value_le_bytes_small; [reflexivity|].
    change (2 ^ (8 * Z.of_nat 2)) with (2 ^ 16). lia. }
  split; [|split; [exact Hnk|split; [|split; [|split; [|split; [|split]]]]]].
  - rewrite bType_eq by lia. rewrite F1.
    rewrite le_value_le_bytes_small; [reflexivity|]. exact Hkind.
  - intros i p Hi.
    pose proof (lookup_lt_Some _ _ _ Hi) as Hlt.
    destruct (getPtr_setPtr_unchecked node (Z.of_nat i) 0) as [Hg _]; [lia| |].
    { unfold field_in. unfold N in *. lia. }
    rewrite Hg, (F3 i p Hi).
    rewrite le_value_le_bytes_small; [reflexivity|].
    change (2 ^ (8 * Z.of_nat 8)) with (2 ^ 64).
    apply (proj1 (Forall_lookup _ _) Hptrs i p Hi).
  - intros i e Hi. apply (Hoff i e Hi).
  - intros i [key val] Hi.
    pose proof (lookup_lt_Some _ _ _ Hi) as Hlt.
    destruct (F5 (S i) (key, val) Hi) as (st & Hst & _ & H0 & Hle & Hrec).
    destruct (Hoff i st Hst) as [_ Hg].
    pose proof (record_size_pos (key, val)) as Hsz.
    replace (Z.of_nat i + 1) with (Z.of_nat (S i)) in Hg by lia.
    assert (Hkv : kvPos node (Z.of_nat (S i)) = Ok (4 + 8 * N + 2 * N + st)).
    { rewrite (kvPos_in_range node N (Z.of_nat (S i)) st Hnk ltac:(unfold N; lia) Hg).
      unfold Header. rewrite u16_small by lia. reflexivity. }
    assert (Hp0 : 0 <= 4 + 8 * N + 2 * N + st) by lia.
    destruct (record_fields (data node) _ key val Hp0 Hrec)
      as (R1 & R2 & R3 & R4).
    unfold record_size in Hle. cbn [fst snd] in Hle.
    destruct (getKey_getVal_record node N (Z.of_nat (S i)) _
                (Z.of_nat (length key)) (Z.of_nat (length val))
                Hnk ltac:(unfold N; lia) Hkv Hp0) as [Gk Gv].
    { rewrite R1. apply le_value_le_bytes_small.
      change (2 ^ (8 * Z.of_nat 2)) with (2 ^ 16). lia. }
    { rewrite R2. apply le_value_le_bytes_small.
      change (2 ^ (8 * Z.of_nat 2)) with (2 ^ 16). lia. }
    { lia. }
    { lia. }
    rewrite Gk, Gv, !Nat2Z.id, R3, R4. cbn [fst snd]. split; reflexivity.
  - intros Hne.
    pose proof (last_entry_end recs 0 Hne) as Hlast. fold RL in Hlast.
    destruct (Hoff _ _ Hlast) as [_ Hg].
    assert (Hpos : (0 < length recs)%nat) by (destruct recs; [congruence|cbn; lia]).
    replace (Z.of_nat (length recs - 1) + 1) with N in Hg by (unfold N; lia).
    rewrite (numBytes_of_last_offset node N (0 + RL) Hnk Hg) by lia.
    f_equal. lia.
  - apply (getKey_zero node N Hnk).
  - apply (getVal_zero node N Hnk).
Qed.

Example decode_sampleLeaf :
  sampleLeaf
  = image_node BNode_Leaf [0; 0]
      [(list_byte_of_string "k0", list_byte_of_string "a");
       (list_byte_of_string "k1", list_byte_of_string "b")]
      (replicate (4096 - 38) Byte.x00).
Proof. reflexivity. Qed.

Lemma decode_node_image_witness :
  bType sampleLeaf = Ok BNode_Leaf /\
  numKeys sampleLeaf = Ok (Z.of_nat (length sampleRecs)) /\
  (forall i p, samplePtrs !! i = Some p -> getPtr sampleLeaf (Z.of_nat i) = Ok p) /\
  (forall i e, entry_ends 0 sampleRecs !! i = Some e ->
     getOffset sampleLeaf (Z.of_nat i + 1) = Ok e) /\
  (forall i kv, sampleRecs !! S i = Some kv ->
     getKey sampleLeaf (Z.of_nat (S i)) = Ok kv.1 /\
     getVal sampleLeaf (Z.of_nat (S i)) = Ok kv.2) /\
  (sampleRecs <> [] ->
     numBytes sampleLeaf
     = Ok (Z.of_nat (length (node_image BNode_Leaf samplePtrs sampleRecs)))) /\
  getKey sampleLeaf 0 = Panic (AssertionFailed offsetPos_msg) /\
  getVal sampleLeaf 0 = Panic (AssertionFailed offsetPos_msg).
Proof.
  apply (decode_node_image BNode_Leaf samplePtrs sampleRecs
           (replicate (4096 - 38) Byte.x00)).
  split; [unfold BNode_Leaf; lia|]. split; [reflexivity|].
  split; [repeat constructor; lia|].
  apply Z.ltb_lt. vm_compute. reflexivity.
Defined.

(** * Further properties of the codec *)

(** ** Inversion of the buffer primitives *)

Lemma slice_Ok_inv (d : list byte) (lo hi : Z) (s : list byte) :
  slice d lo hi = Ok s ->
  0 <= lo <= hi /\ hi <= Z.of_nat (length d) /\
  s = bytes_at d lo (Z.to_nat (hi - lo)) /\
  Z.of_nat (length s) = hi - lo.
Proof.
  unfold slice.
  destruct (Z.leb_spec 0 lo) as [H0|H0]; [|discriminate].
  destruct (Z.leb_spec lo hi) as [H1|H1]; [|discriminate].
  destruct (Z.leb_spec hi (Z.of_nat (length d))) as [H2|H2]; [|discriminate].
  cbn [andb]. intros [= <-].
  split; [lia|]. split; [lia|]. split; [reflexivity|].
  fold (bytes_at d lo (Z.to_nat (hi - lo))).
  rewrite length_bytes_at by lia. lia.
Qed.

Lemma slice_length_eq (d d' : list byte) (lo hi : Z) :
  length d' = length d ->
  bytes_at d' lo (Z.to_nat (hi - lo)) = bytes_at d lo (Z.to_nat (hi - lo)) ->
  slice d' lo hi = slice d lo hi.
Proof.
  intros Hl Hb. unfold slice. rewrite Hl.
  destruct ((0 <=? lo) && (lo <=? hi) && (hi <=? Z.of_nat (length d)));
    [|reflexivity].
  f_equal. exact Hb.
Qed.

(** A slice that does not meet the bytes written reads what it read
    before the write, and fails as it failed before. *)
Lemma slice_write_back_other (d : list byte) (pos : Z) (s : list byte)
    (lo hi : Z) :
  0 <= pos -> pos + Z.of_nat (length s) <= Z.of_nat (length d) ->
  hi <= pos \/ pos + Z.of_nat (length s) <= lo ->
  slice (write_back d pos s) lo hi = slice d lo hi.
Proof.
  intros H0 Hin Hdisj. unfold slice.
  rewrite (length_write_back d pos s H0 Hin).
  destruct (Z.leb_spec 0 lo) as [Hlo|Hlo]; [|reflexivity].
  destruct (Z.leb_spec lo hi) as [Hlh|Hlh]; [|reflexivity].
  destruct (Z.leb_spec hi (Z.of_nat (length d))) as [Hh|Hh]; [|reflexivity].
  cbn [andb]. f_equal.
  apply (bytes_at_write_back_other d pos s lo (Z.to_nat (hi - lo))); lia.
Qed.

Lemma PutUint16_length (b b' : list byte) (v : Z) :
  PutUint16 b v = Ok b' -> length b' = length b.
Proof.
  destruct b as [|b0 [|b1 r]]; try discriminate. intros [= <-]. reflexivity.
Qed.

Lemma PutUint64_length (b b' : list byte) (v : Z) :
  PutUint64 b v = Ok b' -> length b' = length b.
Proof.
  destruct b as [|b0 [|b1 [|b2 [|b3 [|b4 [|b5 [|b6 [|b7 r]]]]]]]];
    try discriminate.
  intros [= <-]. reflexivity.
Qed.

Lemma bind_Ok_inv {A B : Type} (m : result A) (f : A -> result B) (b : B) :
  (m ≫= f) = Ok b -> exists a, m = Ok a /\ f a = Ok b.
Proof.
  destruct m as [a|p]; cbn [mbind result_bind]; [|discriminate].
  intros H. exists a. split; [reflexivity|exact H].
Qed.

(** ** The header *)

(** X1. On a buffer of at least four bytes [setHeader] succeeds, keeps
    the length and every byte from position 4 on, and [bType] and
    [numKeys] then return the two 16-bit values that were written. *)
Theorem setHeader_roundtrip (node : BNode) (t n : Z) :
  4 <= Z.of_nat (length (data node)) ->
  0 <= t < 2 ^ 16 -> 0 <= n < 2 ^ 16 ->
  exists node',
    setHeader node t n = Ok node' /\
    bType node' = Ok t /\ numKeys node' = Ok n /\
    length (data node') = length (data node) /\
    drop 4 (data node') = drop 4 (data node).
Proof.
  intros Hlen Ht Hn.
  destruct (setHeader_read node t n Hlen) as (node' & Hs & Hl & Hb & Hk & Hd).
  exists node'. rewrite (u16_small t Ht) in Hb. rewrite (u16_small n Hn) in Hk.
  repeat split; assumption.
Qed.

Lemma setHeader_roundtrip_witness :
  exists node',
    setHeader zeroPage BNode_Leaf 7 = Ok node' /\
    bType node' = Ok BNode_Leaf /\ numKeys node' = Ok 7 /\
    length (data node') = length (data zeroPage) /\
    drop 4 (data node') = drop 4 (data zeroPage).
Proof.
  apply (setHeader_roundtrip zeroPage BNode_Leaf 7).
  - apply Z.leb_le. vm_compute. reflexivity.
  - unfold BNode_Leaf. lia.
  - lia.
Defined.

(** X2. The header accessors never read or write outside the buffer:
    [bType] succeeds exactly when the buffer has two bytes, [numKeys] and
    [setHeader] exactly when it has four, and otherwise they panic with a
    slice-bounds error. *)
Theorem header_bounds (node : BNode) (t n : Z) :
  (bType node
   = if 2 <=? Z.of_nat (length (data node))
     then Ok (le_value (bytes_at (data node) 0 2))
     else Panic SliceBoundsOutOfRange) /\
  (numKeys node
   = if 4 <=? Z.of_nat (length (data node))
     then Ok (le_value (bytes_at (data node) 2 2))
     else Panic SliceBoundsOutOfRange) /\
  (if 4 <=? Z.of_nat (length (data node))
   then exists node', setHeader node t n = Ok node'
   else setHeader node t n = Panic SliceBoundsOutOfRange).
Proof.
  split; [|split].
  - destruct (Z.leb_spec 2 (Z.of_nat (length (data node)))) as [H|H].
    + apply bType_eq. exact H.
    + unfold bType. rewrite slice_panics by lia. reflexivity.
  - destruct (Z.leb_spec 4 (Z.of_nat (length (data node)))) as [H|H].
    + apply numKeys_eq. exact H.
    + unfold numKeys. rewrite slice_panics by lia. reflexivity.
  - destruct (Z.leb_spec 4 (Z.of_nat (length (data node)))) as [H|H].
    + destruct (setHeader_read node t n H) as (node' & Hs & _).
      exists node'. exact Hs.
    + unfold setHeader.
      destruct (Z.leb_spec 2 (Z.of_nat (length (data node)))) as [H2|H2].
      * rewrite slice_ok by lia. cbn [mbind result_bind].
        rewrite PutUint16_exact by (apply length_bytes_at; lia).
        cbn [mbind result_bind].
        rewrite slice_panics; [reflexivity|].
        right. rewrite length_write_back by (rewrite ?length_le_bytes; lia).
        exact H.
      * rewrite slice_panics by lia. reflexivity.
Qed.

(** ** Child pointers *)

Lemma write_back_keeps_header (d : list byte) (pos : Z) (s : list byte) :
  4 <= pos -> pos + Z.of_nat (length s) <= Z.of_nat (length d) ->
  bType (mkBNode (write_back d pos s)) = bType (mkBNode d) /\
  numKeys (mkBNode (write_back d pos s)) = numKeys (mkBNode d).
Proof.
  intros Hp Hin. unfold bType, numKeys. cbn [data].
  rewrite !slice_write_back_other by lia. split; reflexivity.
Qed.

(** X3. [setPtr] followed by [getPtr] at the same index returns the
    pointer written; the write keeps the length of the buffer, the header
    and every other child pointer. *)
Theorem setPtr_roundtrip (node : BNode) (i ptr : Z) :
  0 <= i -> field_in (data node) (4 + 8 * i) 8 -> 0 <= ptr < 2 ^ 64 ->
  exists node',
    setPtr node i ptr = Ok node' /\
    getPtr node' i = Ok ptr /\
    length (data node') = length (data node) /\
    bType node' = bType node /\ numKeys node' = numKeys node /\
    (forall j, 0 <= j -> j <> i -> field_in (data node) (4 + 8 * j) 8 ->
       getPtr node' j = getPtr node j).
Proof.
  intros Hi Hin Hptr. pose proof Hin as (H0 & H1 & H2).
  destruct (getPtr_setPtr_unchecked node i ptr Hi Hin) as [_ Hs].
  set (node' := mkBNode (write_back (data node) (4 + 8 * i) (le_bytes 8 ptr))) in *.
  assert (Hw : Z.of_nat (length (le_bytes 8 ptr)) = 8)
    by (rewrite length_le_bytes; reflexivity).
  assert (Hlen : length (data node') = length (data node)).
  { apply length_write_back; lia. }
  exists node'. split; [exact Hs|]. split; [|split; [exact Hlen|]].
  - destruct (getPtr_setPtr_unchecked node' i 0 Hi) as [Hg _].
    { unfold field_in. rewrite Hlen. lia. }
    rewrite Hg. cbn [node' data].
    replace 8%nat with (length (le_bytes 8 ptr)) at 2 by apply length_le_bytes.
    rewrite bytes_at_write_back_same by lia.
    rewrite le_value_le_bytes_small; [reflexivity|exact Hptr].
  - destruct (write_back_keeps_header (data node) (4 + 8 * i) (le_bytes 8 ptr))
      as [Hb Hk]; [lia|lia|].
    destruct node as [d]. cbn [data] in *.
    split; [exact Hb|]. split; [exact Hk|].
    intros j Hj Hne Hjn. pose proof Hjn as (J0 & J1 & J2).
    destruct (getPtr_setPtr_unchecked node' j 0 Hj) as [Hg' _].
    { unfold field_in. rewrite Hlen. cbn [data]. lia. }
    destruct (getPtr_setPtr_unchecked (mkBNode d) j 0 Hj Hjn) as [Hg _].
    rewrite Hg', Hg. cbn [node' data]. do 2 f_equal.
    apply bytes_at_write_back_other; lia.
Qed.

Lemma setPtr_roundtrip_witness :
  exists node',
    setPtr sampleLeaf 1 4242 = Ok node' /\
    getPtr node' 1 = Ok 4242 /\
    length (data node') = length (data sampleLeaf) /\
    bType node' = bType sampleLeaf /\ numKeys node' = numKeys sampleLeaf /\
    (forall j, 0 <= j -> j <> 1 -> field_in (data sampleLeaf) (4 + 8 * j) 8 ->
       getPtr node' j = getPtr sampleLeaf j).
Proof.
  apply (setPtr_roundtrip sampleLeaf 1 4242).
  - lia.
  - unfold field_in. split; [lia|]. split; [lia|].
    apply Z.leb_le. vm_compute. reflexivity.
  - lia.
Defined.

(** ** Entry ends *)

Lemma offsetPos_same_keys (node node' : BNode) (idx : Z) :
  numKeys node' = numKeys node -> offsetPos node' idx = offsetPos node idx.
Proof. intros H. unfold offsetPos. rewrite H. reflexivity. Qed.

(** X4. [setOffset] followed by [getOffset] at the same index returns the
    value written; the write keeps the length of the buffer, the header,
    every child pointer below the key count and every other entry end,
    and it moves the record position of its index: [kvPos] becomes header
    size plus pointer-array size plus offset-array size plus the value
    written, in 16-bit arithmetic, and so does [numBytes] when the index
    is the key count. *)
Theorem setOffset_roundtrip (node : BNode) (nk i v : Z) :
  numKeys node = Ok nk -> 1 <= i <= nk ->
  field_in (data node) (4 + 8 * nk + 2 * (i - 1)) 2 ->
  0 <= v < 2 ^ 16 ->
  exists node',
    setOffset node i v = Ok node' /\
    getOffset node' i = Ok v /\
    length (data node') = length (data node) /\
    bType node' = bType node /\ numKeys node' = Ok nk /\
    (forall j, 0 <= j < nk -> getPtr node' j = getPtr node j) /\
    (forall j, 1 <= j <= nk -> j <> i ->
       field_in (data node) (4 + 8 * nk + 2 * (j - 1)) 2 ->
       getOffset node' j = getOffset node j) /\
    kvPos node' i = Ok (u16 (4 + 8 * nk + 2 * nk + v)) /\
    (i = nk -> numBytes node' = Ok (u16 (4 + 8 * nk + 2 * nk + v))).
Proof.
  intros Hnk Hi Hin Hv. pose proof Hin as (H0 & H1 & H2).
  pose proof (numKeys_range node nk Hnk) as Hr.
  set (pos := 4 + 8 * nk + 2 * (i - 1)) in *.
  pose proof (setOffset_in_range node nk i v Hnk Hi Hin) as Hs. fold pos in Hs.
  set (node' := mkBNode (write_back (data node) pos (le_bytes 2 v))) in *.
  assert (Hw : Z.of_nat (length (le_bytes 2 v)) = 2)
    by (rewrite length_le_bytes; reflexivity).
  assert (Hlen : length (data node') = length (data node)).
  { apply length_write_back; lia. }
  destruct (write_back_keeps_header (data node) pos (le_bytes 2 v))
    as [Hb Hk]; [lia|lia|].
  fold node' in Hb, Hk.
  assert (Hnode : mkBNode (data node) = node) by (destruct node; reflexivity).
  rewrite Hnode in Hb, Hk.
  assert (Hnk' : numKeys node' = Ok nk) by (rewrite Hk; exact Hnk).
  assert (Hget : getOffset node' i = Ok v).
  { destruct (getOffset_in_range node' nk i Hnk' Hi) as [_ Hg].
    { unfold field_in. rewrite Hlen. fold pos. lia. }
    rewrite Hg. fold pos. cbn [node' data].
    replace 2%nat with (length (le_bytes 2 v)) at 2 by apply length_le_bytes.
    rewrite bytes_at_write_back_same by lia.
    apply f_equal. apply le_value_le_bytes_small. exact Hv. }
  pose proof (kvPos_in_range node' nk i v Hnk' (proj2 Hi) Hget) as Hkv.
  unfold Header in Hkv.
  exists node'. split; [exact Hs|]. split; [exact Hget|]. split; [exact Hlen|].
  split; [exact Hb|]. split; [exact Hnk'|]. split; [|split; [|split]].
  - intros j Hj.
    assert (Hjn : field_in (data node) (4 + 8 * j) 8) by (unfold field_in; lia).
    destruct (getPtr_setPtr_unchecked node' j 0 ltac:(lia)) as [Hg' _].
    { unfold field_in. rewrite Hlen. unfold field_in in Hjn. exact Hjn. }
    destruct (getPtr_setPtr_unchecked node j 0 ltac:(lia) Hjn) as [Hg _].
    rewrite Hg', Hg. cbn [node' data]. do 2 f_equal.
    apply bytes_at_write_back_other; lia.
  - intros j Hj Hne Hjn. pose proof Hjn as (J0 & J1 & J2).
    destruct (getOffset_in_range node' nk j Hnk' Hj) as [_ Hg'].
    { unfold field_in. rewrite Hlen. lia. }
    destruct (getOffset_in_range node nk j Hnk Hj Hjn) as [_ Hg].
    rewrite Hg', Hg. cbn [node' data]. do 2 f_equal.
    apply bytes_at_write_back_other; unfold pos; lia.
  - exact Hkv.
  - intros ->. rewrite (numBytes_eq_kvPos node' nk Hnk'). exact Hkv.
Qed.

Lemma setOffset_roundtrip_witness :
  exists node',
    setOffset sampleLeaf 2 100 = Ok node' /\
    getOffset node' 2 = Ok 100 /\
    length (data node') = length (data sampleLeaf) /\
    bType node' = bType sampleLeaf /\ numKeys node' = Ok 2 /\
    (forall j, 0 <= j < 2 -> getPtr node' j = getPtr sampleLeaf j) /\
    (forall j, 1 <= j <= 2 -> j <> 2 ->
       field_in (data sampleLeaf) (4 + 8 * 2 + 2 * (j - 1)) 2 ->
       getOffset node' j = getOffset sampleLeaf j) /\
    kvPos node' 2 = Ok (u16 (4 + 8 * 2 + 2 * 2 + 100)) /\
    (2 = 2 -> numBytes node' = Ok (u16 (4 + 8 * 2 + 2 * 2 + 100))).
Proof.
  apply (setOffset_roundtrip sampleLeaf 2 2 100).
  - vm_compute. reflexivity.
  - lia.
  - unfold field_in. split; [lia|]. split; [lia|].
    apply Z.leb_le. vm_compute. reflexivity.
  - lia.
Defined.

(** ** What the setters never do *)

Lemma put16_length (d : list byte) (pos hi v : Z) (node' : BNode) :
  (s ← slice d pos hi; s' ← PutUint16 s v; Ok (mkBNode (write_back d pos s')))
  = Ok node' ->
  length (data node') = length d.
Proof.
  intros H.
  destruct (bind_Ok_inv _ _ _ H) as (s & Hs & H1).
  destruct (bind_Ok_inv _ _ _ H1) as (s' & Hp & H2).
  injection H2 as <-. cbn [data].
  destruct (slice_Ok_inv d pos hi s Hs) as (Hb & Hh & _ & Hl).
  pose proof (PutUint16_length s s' v Hp) as Hl'.
  apply length_write_back; lia.
Qed.

Lemma put64_length (d : list byte) (pos hi v : Z) (node' : BNode) :
  (s ← slice d pos hi; s' ← PutUint64 s v; Ok (mkBNode (write_back d pos s')))
  = Ok node' ->
  length (data node') = length d.
Proof.
  intros H.
  destruct (bind_Ok_inv _ _ _ H) as (s & Hs & H1).
  destruct (bind_Ok_inv _ _ _ H1) as (s' & Hp & H2).
  injection H2 as <-. cbn [data].
  destruct (slice_Ok_inv d pos hi s Hs) as (Hb & Hh & _ & Hl).
  pose proof (PutUint64_length s s' v Hp) as Hl'.
  apply length_write_back; lia.
Qed.

(** X5. No setter changes the size of the buffer: whenever [setHeader],
    [setPtr] or [setOffset] succeeds, on any node and any arguments, the
    buffer of the result is as long as the buffer it was given. *)
Theorem setters_keep_length (node node' : BNode) (a b : Z) :
  setHeader node a b = Ok node' \/
  setPtr node a b = Ok node' \/
  setOffset node a b = Ok node' ->
  length (data node') = length (data node).
Proof.
  intros [H|[H|H]].
  - unfold setHeader in H.
    destruct (bind_Ok_inv _ _ _ H) as (s & Hs & H1).
    destruct (bind_Ok_inv _ _ _ H1) as (s' & Hp & H2).
    cbv zeta in H2.
    destruct (slice_Ok_inv _ _ _ _ Hs) as (Hb & Hh & _ & Hl).
    pose proof (PutUint16_length s s' a Hp) as Hl'.
    rewrite (put16_length _ 2 4 b node' H2).
    apply length_write_back; lia.
  - unfold setPtr in H. cbv zeta in H. apply (put64_length _ _ _ _ _ H).
  - unfold setOffset in H.
    destruct (bind_Ok_inv _ _ _ H) as (pos & _ & H1).
    apply (put16_length _ _ _ _ _ H1).
Qed.

Lemma setters_keep_length_witness :
  length (data (mkBNode (write_back (data sampleLeaf) 12 (le_bytes 8 9))))
  = length (data sampleLeaf).
Proof.
  apply (setters_keep_length sampleLeaf _ 1 9).
  right. left. vm_compute. reflexivity.
Defined.

(** ** Index 0, indexes beyond the key count, and the key count itself *)

Lemma numKeys_cases (node : BNode) :
  (exists nk, numKeys node = Ok nk) \/ numKeys node = Panic SliceBoundsOutOfRange.
Proof.
  destruct (Z.leb_spec 4 (Z.of_nat (length (data node)))) as [H|H].
  - left. eexists. apply numKeys_eq. exact H.
  - right. unfold numKeys. rewrite slice_panics by lia. reflexivity.
Qed.

(** X6. Index 0 is never served: on every node [getOffset], [setOffset],
    [kvPos], [getKey] and [getVal] panic at index 0, the first two with
    the assertion of [offsetPos] before the buffer is even read, and so
    the first record of a node can not be read through the accessors. *)
Theorem index_zero_panics (node : BNode) (v : Z) :
  offsetPos node 0 = Panic (AssertionFailed offsetPos_msg) /\
  getOffset node 0 = Panic (AssertionFailed offsetPos_msg) /\
  setOffset node 0 v = Panic (AssertionFailed offsetPos_msg) /\
  is_Panic (kvPos node 0) /\
  is_Panic (getKey node 0) /\
  is_Panic (getVal node 0).
Proof.
  split; [reflexivity|]. split; [reflexivity|]. split; [reflexivity|].
  destruct (numKeys_cases node) as [[nk Hnk]|Hp].
  - split; [|split]; eexists.
    + apply (kvPos_zero node nk Hnk).
    + apply (getKey_zero node nk Hnk).
    + apply (getVal_zero node nk Hnk).
  - split; [|split]; eexists.
    + apply (numKeys_panics_kvPos node _ 0 Hp).
    + unfold getKey. rewrite Hp. reflexivity.
    + unfold getVal. rewrite Hp. reflexivity.
Qed.

(** X7. Beyond the key count the accessors that assert on their index
    panic with their own message, whatever the buffer holds: [getOffset]
    and [setOffset] in [offsetPos], [kvPos], [getKey] and [getVal] in
    their own assertion, and [setOffset] leaves no write behind. *)
Theorem index_beyond_keyCount_panics (node : BNode) (nk idx v : Z) :
  numKeys node = Ok nk -> nk < idx ->
  getOffset node idx = Panic (AssertionFailed offsetPos_msg) /\
  setOffset node idx v = Panic (AssertionFailed offsetPos_msg) /\
  kvPos node idx = Panic (AssertionFailed kvPos_msg) /\
  getKey node idx = Panic (AssertionFailed getKey_msg) /\
  getVal node idx = Panic (AssertionFailed getVal_msg).
Proof. intros Hnk Hidx. apply (asserting_accessors_beyond node nk idx v Hnk Hidx). Qed.

Lemma index_beyond_keyCount_panics_witness :
  getOffset sampleLeaf 3 = Panic (AssertionFailed offsetPos_msg) /\
  setOffset sampleLeaf 3 5 = Panic (AssertionFailed offsetPos_msg) /\
  kvPos sampleLeaf 3 = Panic (AssertionFailed kvPos_msg) /\
  getKey sampleLeaf 3 = Panic (AssertionFailed getKey_msg) /\
  getVal sampleLeaf 3 = Panic (AssertionFailed getVal_msg).
Proof.
  apply (index_beyond_keyCount_panics sampleLeaf 2 3 5).
  - vm_compute. reflexivity.
  - lia.
Defined.

(** X8. [getPtr] and [setPtr] look at the bounds of the buffer and at
    nothing else: for an index whose eight bytes end below position 2^16,
    they succeed exactly when those bytes lie inside the buffer, whatever
    the key count is, reading or writing them little-endian; otherwise
    they panic with a slice-bounds error and write nothing. *)
Theorem getPtr_setPtr_bounds (node : BNode) (i ptr : Z) :
  0 <= i -> 4 + 8 * i + 8 < 2 ^ 16 ->
  if 4 + 8 * i + 8 <=? Z.of_nat (length (data node))
  then getPtr node i = Ok (le_value (bytes_at (data node) (4 + 8 * i) 8)) /\
       setPtr node i ptr
       = Ok (mkBNode (write_back (data node) (4 + 8 * i) (le_bytes 8 ptr)))
  else getPtr node i = Panic SliceBoundsOutOfRange /\
       setPtr node i ptr = Panic SliceBoundsOutOfRange.
Proof.
  intros Hi Hsmall.
  destruct (Z.leb_spec (4 + 8 * i + 8) (Z.of_nat (length (data node)))) as [H|H].
  - apply getPtr_setPtr_unchecked; [exact Hi|]. unfold field_in. lia.
  - assert (Hpos : add16 Header (mul16 i 8) = 4 + 8 * i).
    { unfold Header. rewrite mul16_small by lia. rewrite add16_small by lia. lia. }
    unfold getPtr, setPtr. cbv zeta. rewrite Hpos.
    rewrite add16_small by lia.
    rewrite slice_panics by lia. split; reflexivity.
Qed.

Lemma getPtr_setPtr_bounds_witness :
  if 4 + 8 * 511 + 8 <=? Z.of_nat (length (data sampleLeaf))
  then getPtr sampleLeaf 511
       = Ok (le_value (bytes_at (data sampleLeaf) (4 + 8 * 511) 8)) /\
       setPtr sampleLeaf 511 1
       = Ok (mkBNode (write_back (data sampleLeaf) (4 + 8 * 511) (le_bytes 8 1)))
  else getPtr sampleLeaf 511 = Panic SliceBoundsOutOfRange /\
       setPtr sampleLeaf 511 1 = Panic SliceBoundsOutOfRange.
Proof. apply (getPtr_setPtr_bounds sampleLeaf 511 1); lia. Defined.

(** X9. The position of a child pointer is computed in 16-bit arithmetic,
    so index [i + 8192] is index [i]: [getPtr] and [setPtr] return for it
    what they return for [i], on every node. *)
Theorem ptr_index_wraps (node : BNode) (i ptr : Z) :
  getPtr node (i + 8192) = getPtr node i /\
  setPtr node (i + 8192) ptr = setPtr node i ptr.
Proof.
  assert (H : mul16 (i + 8192) 8 = mul16 i 8).
  { unfold mul16, u16. replace ((i + 8192) * 8) with (i * 8 + 1 * 2 ^ 16) by lia.
    apply Z.mod_add. lia. }
  unfold getPtr, setPtr. rewrite H. split; reflexivity.
Qed.

Lemma Uint16_range (b : list byte) (v : Z) :
  Uint16 b = Ok v -> 0 <= v < 2 ^ 16.
Proof.
  destruct b as [|b0 [|b1 r]]; try discriminate.
  rewrite Uint16_le. intros [= <-].
  pose proof (le_value_range [b0; b1]) as H. exact H.
Qed.

Lemma Uint64_range (b : list byte) (v : Z) :
  Uint64 b = Ok v -> 0 <= v < 2 ^ 64.
Proof.
  destruct b as [|b0 [|b1 [|b2 [|b3 [|b4 [|b5 [|b6 [|b7 r]]]]]]]];
    try discriminate.
  rewrite Uint64_le. intros [= <-].
  pose proof (le_value_range [b0; b1; b2; b3; b4; b5; b6; b7]) as H. exact H.
Qed.

Lemma u16_range (x : Z) : 0 <= u16 x < 2 ^ 16.
Proof. unfold u16. apply Z.mod_pos_bound. lia. Qed.

Lemma kvPos_range (node : BNode) (i p : Z) :
  kvPos node i = Ok p -> 0 <= p < 2 ^ 16.
Proof.
  unfold kvPos. intros H.
  destruct (bind_Ok_inv _ _ _ H) as (nk & _ & H1).
  destruct (bind_Ok_inv _ _ _ H1) as (u & _ & H2).
  destruct (bind_Ok_inv _ _ _ H2) as (nk1 & _ & H3).
  destruct (bind_Ok_inv _ _ _ H3) as (nk2 & _ & H4).
  destruct (bind_Ok_inv _ _ _ H4) as (off & _ & H5).
  injection H5 as <-. apply u16_range.
Qed.

(** ** The node size *)

(** X11. On a node with at least one key whose last offset slot lies
    inside the buffer, [numBytes] is defined and is read off that slot
    alone: header size plus pointer-array size plus offset-array size plus
    the value stored for index [keyCount], in 16-bit arithmetic.  The
    records themselves are not looked at. *)
Theorem numBytes_formula (node : BNode) (nk : Z) :
  numKeys node = Ok nk -> 1 <= nk ->
  field_in (data node) (4 + 8 * nk + 2 * (nk - 1)) 2 ->
  numBytes node
  = Ok (u16 (4 + 8 * nk + 2 * nk
             + le_value (bytes_at (data node) (4 + 8 * nk + 2 * (nk - 1)) 2))) /\
  numBytes node = kvPos node nk.
Proof.
  intros Hnk H1 Hin.
  destruct (getOffset_in_range node nk nk Hnk ltac:(lia) Hin) as [_ Hget].
  pose proof (kvPos_in_range node nk nk _ Hnk ltac:(lia) Hget) as Hkv.
  rewrite (numBytes_eq_kvPos node nk Hnk). split; [exact Hkv|reflexivity].
Qed.

Lemma numBytes_formula_witness :
  numBytes sampleLeaf
  = Ok (u16 (4 + 8 * 2 + 2 * 2
             + le_value (bytes_at (data sampleLeaf) (4 + 8 * 2 + 2 * (2 - 1)) 2))) /\
  numBytes sampleLeaf = kvPos sampleLeaf 2.
Proof.
  apply (numBytes_formula sampleLeaf 2).
  - vm_compute. reflexivity.
  - lia.
  - unfold field_in. split; [lia|]. split; [lia|].
    apply Z.leb_le. vm_compute. reflexivity.
Defined.

(** X12. A node that has just been given a header with no key has no
    size: on every buffer of at least four bytes and for every kind,
    [setHeader] with key count 0 succeeds and [numBytes] of the result
    panics in [offsetPos]. *)
Theorem fresh_node_numBytes_panics (node : BNode) (kind : Z) :
  4 <= Z.of_nat (length (data node)) ->
  exists node',
    setHeader node kind 0 = Ok node' /\
    numKeys node' = Ok 0 /\
    numBytes node' = Panic (AssertionFailed offsetPos_msg).
Proof.
  intros Hlen.
  destruct (setHeader_read node kind 0 Hlen) as (node' & Hs & _ & _ & Hk & _).
  change (u16 0) with 0 in Hk.
  exists node'. split; [exact Hs|]. split; [exact Hk|].
  apply (numBytes_no_keys node' Hk).
Qed.

Lemma fresh_node_numBytes_panics_witness :
  exists node',
    setHeader zeroPage BNode_Node 0 = Ok node' /\
    numKeys node' = Ok 0 /\
    numBytes node' = Panic (AssertionFailed offsetPos_msg).
Proof.
  apply (fresh_node_numBytes_panics zeroPage BNode_Node).
  apply Z.leb_le. vm_compute. reflexivity.
Defined.

(** ** Keys and values *)

(** X13. The assertions of [getKey] and [getVal] admit the key count
    itself as an index: there they do not panic but take the bytes that
    follow the used portion of the page, at position [numBytes], for a
    record, and return the key and value its two length fields describe. *)
Theorem getKey_getVal_at_keyCount (node : BNode) (nk sz klen vlen : Z) :
  numKeys node = Ok nk -> numBytes node = Ok sz ->
  le_value (bytes_at (data node) sz 2) = klen ->
  le_value (bytes_at (data node) (sz + 2) 2) = vlen ->
  sz + 4 + klen + vlen < 2 ^ 16 ->
  sz + 4 + klen + vlen <= Z.of_nat (length (data node)) ->
  getKey node nk = Ok (bytes_at (data node) (sz + 4) (Z.to_nat klen)) /\
  getVal node nk = Ok (bytes_at (data node) (sz + 4 + klen) (Z.to_nat vlen)).
Proof.
  intros Hnk Hsz Hk Hv Hsmall Hlen.
  rewrite (numBytes_eq_kvPos node nk Hnk) in Hsz.
  pose proof (kvPos_range node nk sz Hsz) as Hr.
  apply (getKey_getVal_record node nk nk sz klen vlen Hnk ltac:(lia) Hsz
           ltac:(lia) Hk Hv Hsmall Hlen).
Qed.

Lemma getKey_getVal_at_keyCount_witness :
  getKey sampleLeaf 2 = Ok (bytes_at (data sampleLeaf) (38 + 4) (Z.to_nat 0)) /\
  getVal sampleLeaf 2 = Ok (bytes_at (data sampleLeaf) (38 + 4 + 0) (Z.to_nat 0)).
Proof.
  apply (getKey_getVal_at_keyCount sampleLeaf 2 38 0 0).
  - vm_compute. reflexivity.
  - vm_compute. reflexivity.
  - vm_compute. reflexivity.
  - vm_compute. reflexivity.
  - lia.
  - apply Z.leb_le. vm_compute. reflexivity.
Defined.

Lemma bytes_at_app (d : list byte) (pos : Z) (a b : nat) :
  0 <= pos ->
  bytes_at d pos (a + b) = bytes_at d pos a ++ bytes_at d (pos + Z.of_nat a) b.
Proof.
  intros H. unfold bytes_at.
  replace (Z.to_nat (pos + Z.of_nat a)) with (Z.to_nat pos + a)%nat by lia.
  rewrite <- drop_drop. symmetry. apply take_take_drop.
Qed.

Lemma add16_no_wrap (a b : Z) :
  0 <= a < 2 ^ 16 -> 0 <= b < 2 ^ 16 -> a <= add16 a b -> add16 a b = a + b.
Proof.
  intros Ha Hb Hle. unfold add16, u16 in *.
  destruct (Z.lt_ge_cases (a + b) (2 ^ 16)) as [H|H].
  - apply Z.mod_small. lia.
  - exfalso.
    replace (a + b) with ((a + b - 2 ^ 16) + 1 * 2 ^ 16) in Hle by lia.
    rewrite Z.mod_add in Hle by lia.
    rewrite Z.mod_small in Hle by lia. lia.
Qed.

Lemma field16_bytes (d : list byte) (pos : Z) (n : nat) :
  0 <= pos -> pos + 2 <= Z.of_nat (length d) ->
  le_value (bytes_at d pos 2) = Z.of_nat n ->
  bytes_at d pos 2 = le_bytes 2 (Z.of_nat n).
Proof.
  intros H0 Hin Hv. rewrite <- Hv.
  rewrite <- (le_bytes_value (bytes_at d pos 2)) at 1.
  rewrite length_bytes_at by lia. reflexivity.
Qed.

(** X14. What [getKey] and [getVal] return is what the page encodes: on
    a buffer shorter than 2^16 - 2 bytes, if [kvPos], [getKey] and
    [getVal] succeed at an index, then the bytes at the record position
    are exactly the length-prefixed record of the key and value returned,
    2-byte key length, 2-byte value length, key, value, and that record
    lies inside the buffer. *)
Theorem getKey_getVal_sound (node : BNode) (i pos : Z) (k v : list byte) :
  Z.of_nat (length (data node)) + 2 < 2 ^ 16 ->
  kvPos node i = Ok pos -> getKey node i = Ok k -> getVal node i = Ok v ->
  bytes_at (data node) pos (length (record_bytes k v)) = record_bytes k v /\
  pos + record_size (k, v) <= Z.of_nat (length (data node)).
Proof.
  intros Hlen Hpos Hk Hv.
  pose proof (kvPos_range node i pos Hpos) as Hr.
  set (d := data node) in *.
  (* the key *)
  unfold getKey in Hk.
  destruct (bind_Ok_inv _ _ _ Hk) as (nk & _ & K1).
  destruct (bind_Ok_inv _ _ _ K1) as (u & _ & K2).
  destruct (bind_Ok_inv _ _ _ K2) as (pos' & Hpos' & K3).
  rewrite Hpos in Hpos'. injection Hpos' as <-.
  destruct (bind_Ok_inv _ _ _ K3) as (s & Hs & K4).
  destruct (bind_Ok_inv _ _ _ K4) as (klen & Hu & K5).
  fold d in Hs, K5.
  destruct (slice_Ok_inv d _ _ s Hs) as (S1 & S2 & S3 & S4).
  assert (E2 : add16 pos 2 = pos + 2) by (apply add16_no_wrap; lia).
  rewrite E2 in *.
  replace (Z.to_nat (pos + 2 - pos)) with 2%nat in S3 by lia.
  assert (E4 : add16 pos 4 = pos + 4) by (apply add16_small; lia).
  rewrite E4 in *.
  pose proof (Uint16_range s klen Hu) as Rk.
  rewrite Uint16_exact in Hu by lia. injection Hu as Hklen.
  destruct (slice_Ok_inv d _ _ k K5) as (T1 & T2 & T3 & T4).
  assert (Ek : add16 (pos + 4) klen = pos + 4 + klen) by (apply add16_no_wrap; lia).
  rewrite Ek in *.
  replace (pos + 4 + klen - (pos + 4)) with klen in * by lia.
  (* the value *)
  unfold getVal in Hv.
  destruct (bind_Ok_inv _ _ _ Hv) as (nk' & _ & V1).
  destruct (bind_Ok_inv _ _ _ V1) as (u' & _ & V2).
  destruct (bind_Ok_inv _ _ _ V2) as (pos' & Hpos' & V3).
  rewrite Hpos in Hpos'. injection Hpos' as <-.
  fold d in V3. rewrite E2, E4, Hs in V3. cbn [mbind result_bind] in V3.
  rewrite Uint16_exact in V3 by lia. cbn [mbind result_bind] in V3.
  rewrite Hklen in V3.
  destruct (bind_Ok_inv _ _ _ V3) as (t & Ht & V4).
  destruct (bind_Ok_inv _ _ _ V4) as (vlen & Hu' & V5).
  destruct (slice_Ok_inv d _ _ t Ht) as (U1 & U2 & U3 & U4).
  replace (Z.to_nat (pos + 4 - (pos + 2))) with 2%nat in U3 by lia.
  pose proof (Uint16_range t vlen Hu') as Rv.
  rewrite Uint16_exact in Hu' by lia. injection Hu' as Hvlen.
  rewrite Ek in V5.
  destruct (slice_Ok_inv d _ _ v V5) as (W1 & W2 & W3 & W4).
  assert (Ev : add16 (pos + 4 + klen) vlen = pos + 4 + klen + vlen)
    by (apply add16_no_wrap; lia).
  rewrite Ev in *.
  replace (pos + 4 + klen + vlen - (pos + 4 + klen)) with vlen in * by lia.
  (* the record *)
  assert (Lk : Z.to_nat klen = length k) by lia.
  assert (Lv : Z.to_nat vlen = length v) by lia.
  rewrite Lk in T3. rewrite Lv in W3.
  replace klen with (Z.of_nat (length k)) in * by lia.
  replace vlen with (Z.of_nat (length v)) in * by lia.
  split; [|unfold record_size; cbn [fst snd]; lia].
  unfold record_bytes at 1.
  rewrite !length_app, !length_le_bytes.
  rewrite (bytes_at_app d pos 2) by lia.
  rewrite (bytes_at_app d (pos + Z.of_nat 2) 2) by lia.
  rewrite (bytes_at_app d (pos + Z.of_nat 2 + Z.of_nat 2) (length k)) by lia.
  change (Z.of_nat 2) with 2.
  replace (pos + 2 + 2) with (pos + 4) by lia.
  unfold record_bytes.
  rewrite (field16_bytes d pos (length k)) by (rewrite <- ?S3; lia).
  rewrite (field16_bytes d (pos + 2) (length v)) by (rewrite <- ?U3; lia).
  rewrite <- T3, <- W3. reflexivity.
Qed.

Lemma getKey_getVal_sound_witness :
  bytes_at (data sampleLeaf) 31
    (length (record_bytes (list_byte_of_string "k1") (list_byte_of_string "b")))
  = record_bytes (list_byte_of_string "k1") (list_byte_of_string "b") /\
  31 + record_size (list_byte_of_string "k1", list_byte_of_string "b")
  <= Z.of_nat (length (data sampleLeaf)).
Proof.
  apply (getKey_getVal_sound sampleLeaf 1 31).
  - apply Z.ltb_lt. vm_compute. reflexivity.
  - vm_compute. reflexivity.
  - vm_compute. reflexivity.
  - vm_compute. reflexivity.
Defined.

(** * The log file *)

Lemma set_file_same (m : string -> option (list byte)) (path : string)
    (c : list byte) :
  set_file m path c path = Some c.
Proof. unfold set_file. rewrite String.eqb_refl. reflexivity. Qed.

Lemma set_file_other (m : string -> option (list byte)) (path p : string)
    (c : list byte) :
  p <> path -> set_file m path c p = m p.
Proof.
  intros H. unfold set_file.
  destruct (String.eqb_spec p path) as [E|E]; [contradiction|reflexivity].
Qed.

Lemma write_at_end (c buf : list byte) : write_at c (length c) buf = c ++ buf.
Proof.
  unfold write_at. rewrite take_ge by lia. rewrite Nat.sub_diag.
  rewrite drop_ge by lia. cbn [replicate app]. rewrite app_nil_r. reflexivity.
Qed.

Lemma write_at_start (c buf : list byte) :
  write_at c 0 buf = buf ++ drop (length buf) c.
Proof. unfold write_at. rewrite take_0. reflexivity. Qed.

(** One call with no fault, on a file opened without O_APPEND. *)
Lemma LogAppend_no_fault (fs : FS) (path : string) (off : nat)
    (c line : list byte) :
  files fs path = Some c ->
  LogAppend None None fs (mkFile path false off) line
  = (mkFS (set_file (files fs) path (write_at c off (line ++ [newline])))
          (set_file (durable fs) path (write_at c off (line ++ [newline]))),
     mkFile path false (off + length (line ++ [newline])),
     None).
Proof.
  intros Hc. unfold LogAppend, Write. cbn [fpath fappend foffset].
  rewrite Hc. cbn [fpath fappend foffset].
  unfold Sync. cbn [fpath files durable].
  rewrite set_file_same. reflexivity.
Qed.

Lemma appendLines_at_end (ls : list (list byte)) :
  forall (fs : FS) (path : string) (c : list byte),
    files fs path = Some c ->
    exists fs',
      appendLines fs (mkFile path false (length c)) ls
      = (fs', mkFile path false (length (c ++ log_of ls)), None) /\
      files fs' path = Some (c ++ log_of ls) /\
      durable fs' path
      = match ls with [] => durable fs path | _ => Some (c ++ log_of ls) end /\
      (forall p, p <> path ->
         files fs' p = files fs p /\ durable fs' p = durable fs p).
Proof.
  induction ls as [|l t IH]; intros fs path c Hc.
  - exists fs. unfold log_of. cbn [map concat appendLines]. rewrite app_nil_r.
    repeat split; [exact Hc].
  - cbn [appendLines]. rewrite (LogAppend_no_fault fs path (length c) c l Hc).
    rewrite write_at_end.
    set (fs1 := mkFS (set_file (files fs) path (c ++ l ++ [newline]))
                     (set_file (durable fs) path (c ++ l ++ [newline]))).
    assert (H1 : files fs1 path = Some (c ++ l ++ [newline]))
      by apply set_file_same.
    replace (length c + length (l ++ [newline]))%nat
      with (length (c ++ l ++ [newline])) by (rewrite !length_app; lia).
    destruct (IH fs1 path _ H1) as (fs' & Ha & Hf & Hd & Ho).
    assert (E : (c ++ l ++ [newline]) ++ log_of t = c ++ log_of (l :: t)).
    { unfold log_of. cbn [map concat]. rewrite <- !app_assoc. reflexivity. }
    rewrite E in Ha, Hf, Hd.
    exists fs'. split; [exact Ha|]. split; [exact Hf|]. split.
    + destruct t; [|exact Hd].
      rewrite Hd. cbn [fs1 durable]. rewrite set_file_same.
      f_equal. unfold log_of. cbn [map concat]. rewrite app_nil_r. reflexivity.
    + intros p Hp. destruct (Ho p Hp) as [Ho1 Ho2].
      rewrite Ho1, Ho2. cbn [fs1 files durable].
      rewrite !set_file_other by exact Hp. split; reflexivity.
Qed.

(** X16. [LogCreate] on a path that has no file creates the file empty,
    and appending lines to it one after the other, with no fault, leaves
    a file that holds each line followed by one newline, in order, all of
    it durable; no other file is touched. *)
Theorem LogAppend_fresh_log (fs : FS) (path : string) (ls : list (list byte)) :
  files fs path = None ->
  exists fs0 fp0 fs' fp',
    LogCreate None fs path = (fs0, inl fp0) /\
    appendLines fs0 fp0 ls = (fs', fp', None) /\
    files fs' path = Some (log_of ls) /\
    durable fs' path
    = match ls with [] => durable fs path | _ => Some (log_of ls) end /\
    (forall p, p <> path ->
       files fs' p = files fs p /\ durable fs' p = durable fs p).
Proof.
  intros Hnone.
  set (fs0 := mkFS (set_file (files fs) path []) (durable fs)).
  assert (H0 : files fs0 path = Some []) by apply set_file_same.
  destruct (appendLines_at_end ls fs0 path [] H0) as (fs' & Ha & Hf & Hd & Ho).
  exists fs0, (mkFile path false 0), fs', (mkFile path false (length ([] ++ log_of ls))).
  split.
  { unfold LogCreate, OpenFile. rewrite Hnone. reflexivity. }
  split; [exact Ha|]. split; [exact Hf|]. split; [exact Hd|].
  intros p Hp. destruct (Ho p Hp) as [Ho1 Ho2]. rewrite Ho1, Ho2.
  cbn [fs0 files durable]. rewrite set_file_other by exact Hp.
  split; reflexivity.
Qed.

Lemma LogAppend_fresh_log_witness :
  exists fs0 fp0 fs' fp',
    LogCreate None noFiles "db.log" = (fs0, inl fp0) /\
    appendLines fs0 fp0 [list_byte_of_string "a"; list_byte_of_string "b"]
    = (fs', fp', None) /\
    files fs' "db.log"%string
    = Some (log_of [list_byte_of_string "a"; list_byte_of_string "b"]) /\
    durable fs' "db.log"%string
    = match [list_byte_of_string "a"; list_byte_of_string "b"] with
      | [] => durable noFiles "db.log"%string
      | _ => Some (log_of [list_byte_of_string "a"; list_byte_of_string "b"])
      end /\
    (forall p, p <> "db.log"%string ->
       files fs' p = files noFiles p /\ durable fs' p = durable noFiles p).
Proof.
  apply (LogAppend_fresh_log noFiles "db.log"
           [list_byte_of_string "a"; list_byte_of_string "b"]).
  reflexivity.
Defined.

(** X17. [LogCreate] opens an existing file without O_APPEND and without
    O_TRUNC: the content stays and the offset is 0.  The first
    [LogAppend] on the file so opened therefore writes over the start of
    the old content instead of adding to its end: the file then holds the
    line, a newline, and what the old content had beyond them. *)
Theorem LogAppend_after_reopen_overwrites (fs : FS) (path : string)
    (old line : list byte) :
  files fs path = Some old ->
  exists fp fs' fp',
    LogCreate None fs path = (fs, inl fp) /\
    LogAppend None None fs fp line = (fs', fp', None) /\
    files fs' path = Some (line ++ [newline] ++ drop (length line + 1) old) /\
    durable fs' path = files fs' path /\
    (old <> [] -> files fs' path <> Some (old ++ line ++ [newline])).
Proof.
  intros Hold.
  exists (mkFile path false 0). eexists. eexists.
  split.
  { unfold LogCreate, OpenFile. rewrite Hold. reflexivity. }
  split; [apply (LogAppend_no_fault fs path 0 old line Hold)|].
  cbn [files durable]. rewrite !set_file_same, write_at_start.
  rewrite length_app. cbn [length]. rewrite <- app_assoc.
  split; [reflexivity|]. split; [reflexivity|].
  intros Hne [= E]. apply (f_equal (@length byte)) in E.
  rewrite !length_app in E. cbn [length] in E. rewrite length_drop in E.
  destruct old; [congruence|cbn [length] in E; lia].
Qed.

Lemma LogAppend_after_reopen_overwrites_witness :
  exists fp fs' fp',
    LogCreate None oneLog "db.log" = (oneLog, inl fp) /\
    LogAppend None None oneLog fp (list_byte_of_string "second")
    = (fs', fp', None) /\
    files fs' "db.log"%string
    = Some (list_byte_of_string "second" ++ [newline]
            ++ drop (length (list_byte_of_string "second") + 1) oldLog) /\
    durable fs' "db.log"%string = files fs' "db.log"%string /\
    (oldLog <> [] ->
     files fs' "db.log"%string
     <> Some (oldLog ++ list_byte_of_string "second" ++ [newline])).
Proof.
  apply (LogAppend_after_reopen_overwrites oneLog "db.log" oldLog).
  reflexivity.
Defined.

(** X18. [LogAppend] syncs only what it managed to write: when the write
    fails, its error is returned and nothing is synced, so the durable
    content is what it was even though part of the line may be in the
    file; when the write succeeds and the sync fails, the error of the
    sync is returned, and the line is in the file but not durable. *)
Theorem LogAppend_faults (fs : FS) (fp : File) (c line : list byte)
    (k : nat) (e : error) (sfault : option error) :
  files fs (fpath fp) = Some c ->
  (LogAppend (Some (k, e)) sfault fs fp line).2 = Some e /\
  durable (LogAppend (Some (k, e)) sfault fs fp line).1.1 = durable fs /\
  (LogAppend None (Some e) fs fp line).2 = Some e /\
  durable (LogAppend None (Some e) fs fp line).1.1 = durable fs /\
  files (LogAppend None (Some e) fs fp line).1.1 (fpath fp)
  = Some (write_at c (if fappend fp then length c else foffset fp)
                   (line ++ [newline])).
Proof.
  intros Hc. unfold LogAppend, Write, Sync. rewrite Hc.
  cbn [fst snd files durable fpath].
  split; [reflexivity|]. split; [reflexivity|].
  split; [reflexivity|]. split; [reflexivity|].
  apply set_file_same.
Qed.

Lemma LogAppend_faults_witness :
  (LogAppend (Some (3%nat, "disk full"%string)) None oneLog
     (mkFile "db.log" false 0) (list_byte_of_string "second")).2
  = Some "disk full"%string /\
  durable (LogAppend (Some (3%nat, "disk full"%string)) None oneLog
             (mkFile "db.log" false 0) (list_byte_of_string "second")).1.1
  = durable oneLog /\
  (LogAppend None (Some "disk full"%string) oneLog
     (mkFile "db.log" false 0) (list_byte_of_string "second")).2
  = Some "disk full"%string /\
  durable (LogAppend None (Some "disk full"%string) oneLog
             (mkFile "db.log" false 0) (list_byte_of_string "second")).1.1
  = durable oneLog /\
  files (LogAppend None (Some "disk full"%string) oneLog
           (mkFile "db.log" false 0) (list_byte_of_string "second")).1.1
        (fpath (mkFile "db.log" false 0))
  = Some (write_at oldLog
            (if fappend (mkFile "db.log" false 0) then length oldLog
             else foffset (mkFile "db.log" false 0))
            (list_byte_of_string "second" ++ [newline])).
Proof.
  apply (LogAppend_faults oneLog (mkFile "db.log" false 0) oldLog
           (list_byte_of_string "second") 3 "disk full"%string None).
  reflexivity.
Defined.
